(** * mingodb: a document store over an ordered key-value engine

    Shallow embedding of [mingodb.go] and [results.go].

    The Go code is stateful and fallible, so every method becomes a
    computation in a state-and-failure monad over a [World]: the Go heap of
    [map[string]interface{}] objects (maps are references, and [InsertOne]
    writes into the map it is given), the [bolt.DB] objects reachable through
    [*bolt.DB] pointers, and the state of the ObjectID generator.  A
    computation ends in a value, in a Go [error], or in a run-time panic.

    The collaborators that live outside the repository are kept apart:
    - the storage engine (bbolt) is modelled by finite maps, with the
      transaction discipline of [Update] and [View] (commit on success,
      rollback on error or panic) and the argument checks of [Put];
    - the document codec (bson), the struct flattener (structs) and the
      identifier generator (primitive.NewObjectID) are the fields of the
      class [Externals]; what is assumed of them is the class
      [ExternalsLaws]. *)

From stdpp Require Import base option list strings gmap.
From Stdlib Require Import ZArith Ascii.

Set Warnings "-register-all".
Local Open Scope Z_scope.

(** ** Bytes, pointers *)

(** A Go [string] and a Go [[]byte] are both sequences of 8-bit units; the
    conversion [[]byte(name)] is the identity on them. *)
Abbreviation bytes := string (only parsing).

Definition len (b : bytes) : Z := Z.of_nat (String.length b).

(** Pointers into the stores of the [World]. *)
Abbreviation loc := nat (only parsing).

(** ** Go errors *)

(** Modelled from the spec: the package variables [ErrEmptyBucketName] and
    [ErrInvalidType] are used by [mingodb.go] but declared in a file that is
    not part of the sources; the spec names them [EmptyNameError] and
    [InvalidTypeError], two distinct errors of this package.  The remaining
    constructors are the errors of the engine ([bolt.Err...]), the value of
    [errors.New msg] and the errors of the codec. *)
Inductive error : Type :=
  | ErrEmptyBucketName
  | ErrInvalidType
  | errors_New (msg : string)
  | ErrDatabaseNotOpen
  | ErrBucketNameRequired
  | ErrBucketNotFound
  | ErrKeyRequired
  | ErrKeyTooLarge
  | ErrValueTooLarge
  | ErrCodec (msg : string).

#[global] Instance error_eq_dec : EqDecision error.
Proof. solve_decision. Defined.

(** ** Outcomes and the monad of methods *)

Inductive outcome (A : Type) : Type :=
  | Ok (a : A)
  | Err (e : error)
  | Panic.
Arguments Ok {A} a.
Arguments Err {A} e.
Arguments Panic {A}.

(** A computation over a state [S]. *)
Definition ST (S A : Type) : Type := S -> outcome A * S.

Definition ret {S A} (a : A) : ST S A := fun s => (Ok a, s).

Definition raise {S A} (e : error) : ST S A := fun s => (Err e, s).

Definition panic {S A} : ST S A := fun s => (Panic, s).

Definition bind {S A B} (c : ST S A) (k : A -> ST S B) : ST S B :=
  fun s =>
    match c s with
    | (Ok a, s') => k a s'
    | (Err e, s') => (Err e, s')
    | (Panic, s') => (Panic, s')
    end.

(** A pure fallible step, which leaves the state alone. *)
Definition lift {S A} (o : outcome A) : ST S A := fun s => (o, s).

Declare Scope go_scope.
Delimit Scope go_scope with go.
Notation "'let*' x ':=' c 'in' k" := (bind c (fun x => k))
  (at level 10, x name, c at level 100, k at level 200, only parsing) : go_scope.
Local Open Scope go_scope.

(** ** Dynamic values: what an [interface{}] can hold *)

(** [reflect.Kind], the kinds that the values below have. *)
Inductive Kind : Type :=
  | reflect_Bool
  | reflect_Int
  | reflect_String
  | reflect_Array
  | reflect_Slice
  | reflect_Struct
  | reflect_Ptr
  | reflect_Map.

#[global] Instance Kind_eq_dec : EqDecision Kind.
Proof. solve_decision. Defined.

(** [reflect.Type], as far as the code looks at it: enough to tell the kind
    and whether the type is exactly [map[string]interface{}]. *)
Inductive rtype : Type :=
  | TBool
  | TInt
  | TString
  | TObjectID                      (* primitive.ObjectID = [12]byte *)
  | TA                             (* primitive.A = []interface{} *)
  | TD                             (* primitive.D = []primitive.E *)
  | TStruct (tname : string)
  | TPtr (elem : rtype)
  | TMapStringInterface            (* map[string]interface{} *)
  | TMapOther (tname : string).    (* any other map type: bson.M, map[string]string, ... *)

#[global] Instance rtype_eq_dec : EqDecision rtype.
Proof. solve_decision. Defined.

Definition Type_Kind (t : rtype) : Kind :=
  match t with
  | TBool => reflect_Bool
  | TInt => reflect_Int
  | TString => reflect_String
  | TObjectID => reflect_Array
  | TA | TD => reflect_Slice
  | TStruct _ => reflect_Struct
  | TPtr _ => reflect_Ptr
  | TMapStringInterface | TMapOther _ => reflect_Map
  end.

(** The values.  [VNil] is the nil interface.  A [map[string]interface{}] is
    a reference into the heap, [None] being the nil map; maps of the other
    types are never opened by this package and are kept by value. *)
Inductive value : Type :=
  | VNil
  | VBool (b : bool)
  | VInt (n : Z)
  | VString (s : string)
  | VObjectID (o : bytes)
  | VA (xs : list value)
  | VD (es : list (string * value))
  | VStruct (tname : string) (fields : list (string * value))
  | VPtr (elem : rtype) (target : option value)
  | VMap (r : option loc)
  | VMapOther (tname : string) (es : list (value * value)).

(** [reflect.TypeOf]: nil for the nil interface. *)
Definition reflect_TypeOf (v : value) : option rtype :=
  match v with
  | VNil => None
  | VBool _ => Some TBool
  | VInt _ => Some TInt
  | VString _ => Some TString
  | VObjectID _ => Some TObjectID
  | VA _ => Some TA
  | VD _ => Some TD
  | VStruct n _ => Some (TStruct n)
  | VPtr t _ => Some (TPtr t)
  | VMap _ => Some TMapStringInterface
  | VMapOther n _ => Some (TMapOther n)
  end.

(** The type assertion [doc.(map[string]interface{})], with its [ok]. *)
Definition assert_map (doc : value) : option (option loc) :=
  match doc with
  | VMap r => Some r
  | _ => None
  end.

(** The content of a map object. *)
Abbreviation fields := (gmap string value) (only parsing).
Abbreviation Heap := (list (gmap string value)) (only parsing).

(** ** results.go *)

Definition InsertID : Type := value.

Record SingleResult : Type := { SingleResult_data : bytes }.
Record MultiResult : Type := { ResultCount : Z }.
Record UpdateResult : Type := { UpdateCount : Z }.
Record DeleteResult : Type := { DeleteCount : Z }.

(** ** The storage engine (bbolt) *)

(** A bucket maps keys to values; a transaction sees the root, which maps
    bucket names to buckets. *)
Abbreviation Bucket := (gmap string string) (only parsing).
Abbreviation Tx := (gmap string (gmap string string)) (only parsing).

Record bolt_DB : Type := {
  opened : bool;
  data : gmap string (gmap string string);
}.

Definition MaxKeySize : Z := 32768.
Definition MaxValueSize : Z := 2 ^ 31 - 2.

(** [tx.CreateBucketIfNotExists]; a [*bolt.Bucket] is the name of the bucket
    inside its transaction. *)
Definition Tx_CreateBucketIfNotExists (name : bytes) : ST Tx bytes :=
  fun tx =>
    if decide (name = "") then (Err ErrBucketNameRequired, tx)
    else match tx !! name with
         | Some _ => (Ok name, tx)
         | None => (Ok name, <[name := ∅]> tx)
         end.

(** [tx.Bucket]: nil when there is no such bucket. *)
Definition Tx_Bucket (name : bytes) : ST Tx (option bytes) :=
  fun tx =>
    match tx !! name with
    | Some _ => (Ok (Some name), tx)
    | None => (Ok None, tx)
    end.

(** [tx.DeleteBucket]. *)
Definition Tx_DeleteBucket (name : bytes) : ST Tx unit :=
  fun tx =>
    match tx !! name with
    | Some _ => (Ok tt, delete name tx)
    | None => (Err ErrBucketNotFound, tx)
    end.

(** [b.Put]: a nil receiver is dereferenced at once. *)
Definition Bucket_Put (b : option bytes) (key val : bytes) : ST Tx unit :=
  fun tx =>
    match b with
    | None => (Panic, tx)
    | Some name =>
        if len key =? 0 then (Err ErrKeyRequired, tx)
        else if MaxKeySize <? len key then (Err ErrKeyTooLarge, tx)
        else if MaxValueSize <? len val then (Err ErrValueTooLarge, tx)
        else (Ok tt, alter (insert key val) name tx)
    end.

(** [b.Get]: nil when the key is absent. *)
Definition Bucket_Get (b : option bytes) (key : bytes) : ST Tx (option bytes) :=
  fun tx =>
    match b with
    | None => (Panic, tx)
    | Some name => (Ok (tx !! name ≫= fun bk => bk !! key), tx)
    end.

(** ** The collaborators outside the repository *)

(** - [primitive_NewObjectID] draws the next identifier from the state of
      the generator (clock, process bytes, counter);
    - [structs_Map] is [structs.Map]: the content of the map made from a
      struct, and the heap with the maps made for nested structs;
    - [bson_MarshalValue], [bson_Marshal] and [bson_Unmarshal] are the
      codec; the encoders read the heap, since a value may hold maps. *)
Class Externals : Type := {
  ObjectIDState : Type;
  primitive_NewObjectID : ObjectIDState -> bytes * ObjectIDState;
  structs_Map : value -> Heap -> fields * Heap;
  bson_MarshalValue : Heap -> value -> outcome bytes;
  bson_Marshal : Heap -> fields -> outcome bytes;
  bson_Unmarshal : bytes -> outcome fields;
}.

(** What is assumed of them: an ObjectID has 12 bytes, and the encoding of
    an ObjectID value is these 12 bytes. *)
Class ExternalsLaws (E : Externals) : Prop := {
  NewObjectID_length :
    forall g, String.length (primitive_NewObjectID g).1 = 12%nat;
  MarshalValue_ObjectID :
    forall h o, String.length o = 12%nat -> bson_MarshalValue h (VObjectID o) = Ok o;
}.

(** ** The world *)

Record World `{Externals} : Type := {
  heap : list (gmap string value);
  dbs : list bolt_DB;
  idgen : ObjectIDState;
}.

Section Mingodb.
Context `{E : Externals}.

Definition M (A : Type) : Type := ST World A.

(** *** Go maps *)

(** [make]: a new map object. *)
Definition new_map (content : fields) : M (option loc) :=
  fun w =>
    (Ok (Some (length (heap w))),
     {| heap := heap w ++ [content]; dbs := dbs w; idgen := idgen w |}).

(** Reading a map: a nil map reads as an empty one. *)
Definition map_content (m : option loc) : M fields :=
  fun w =>
    match m with
    | None => (Ok ∅, w)
    | Some l =>
        match heap w !! l with
        | Some content => (Ok content, w)
        | None => (Panic, w)
        end
    end.

(** [v, ok := m[k]]. *)
Definition map_index (m : option loc) (k : string) : M (option value) :=
  let* content := map_content m in
  ret (content !! k).

(** [m[k] = v]: a panic on the nil map, a write into the map object
    otherwise. *)
Definition map_assign (m : option loc) (k : string) (v : value) : M unit :=
  fun w =>
    match m with
    | None => (Panic, w)
    | Some l =>
        match heap w !! l with
        | Some content =>
            (Ok tt,
             {| heap := <[l := <[k := v]> content]> (heap w);
                dbs := dbs w; idgen := idgen w |})
        | None => (Panic, w)
        end
    end.

(** *** Calls to the collaborators *)

(** [t.Kind()]: a method call on the nil [reflect.Type] panics. *)
Definition Kind_of (t : option rtype) : M Kind :=
  match t with
  | Some t => ret (Type_Kind t)
  | None => panic
  end.

Definition call_structs_Map (doc : value) : M (option loc) :=
  fun w =>
    let '(content, h) := structs_Map doc (heap w) in
    new_map content {| heap := h; dbs := dbs w; idgen := idgen w |}.

Definition NewObjectID : M value :=
  fun w =>
    let '(o, g) := primitive_NewObjectID (idgen w) in
    (Ok (VObjectID o), {| heap := heap w; dbs := dbs w; idgen := g |}).

Definition MarshalValue (v : value) : M bytes :=
  fun w => (bson_MarshalValue (heap w) v, w).

Definition Marshal (m : option loc) : M bytes :=
  let* content := map_content m in
  fun w => (bson_Marshal (heap w) content, w).

(** [var m map[string]interface{}; bson.Unmarshal(doc, &m)]. *)
Definition Unmarshal (doc : bytes) : M (option loc) :=
  let* content := lift (bson_Unmarshal doc) in
  new_map content.

(** *** Transactions *)

(** [db.Update]: the function runs on the data of the open database; its
    writes are committed when it returns nil, and dropped when it returns an
    error or panics.  A database from [Open] is never read-only; failures of
    the disk at commit are outside the model. *)
Definition DB_Update {A} (p : loc) (fn : ST Tx A) : M A :=
  fun w =>
    match dbs w !! p with
    | None => (Panic, w)
    | Some d =>
        if opened d then
          match fn (data d) with
          | (Ok a, tx) =>
              (Ok a,
               {| heap := heap w;
                  dbs := <[p := {| opened := true; data := tx |}]> (dbs w);
                  idgen := idgen w |})
          | (Err e, _) => (Err e, w)
          | (Panic, _) => (Panic, w)
          end
        else (Err ErrDatabaseNotOpen, w)
    end.

(** [db.View]: the same on a read-only transaction. *)
Definition DB_View {A} (p : loc) (fn : ST Tx A) : M A :=
  fun w =>
    match dbs w !! p with
    | None => (Panic, w)
    | Some d =>
        if opened d then ((fn (data d)).1, w)
        else (Err ErrDatabaseNotOpen, w)
    end.

(** [db.Close]. *)
Definition DB_Close (p : loc) : M unit :=
  fun w =>
    match dbs w !! p with
    | None => (Panic, w)
    | Some d =>
        (Ok tt,
         {| heap := heap w;
            dbs := <[p := {| opened := false; data := data d |}]> (dbs w);
            idgen := idgen w |})
    end.

(** ** mingodb.go *)

(** [Database]: the field [db] is the pointer to the engine's object. *)
Record Database : Type := {
  Path : string;
  Database_db : loc;
}.

(** [Collection]. *)
Record Collection : Type := {
  Collection_db : Database;
  Collection_name : string;
}.

Definition Close (db : Database) : M unit :=
  DB_Close (Database_db db).

Definition Database_Collection (db : Database) (name : string) : M Collection :=
  (* Is the collection name empty? *)
  if decide (name = "") then raise ErrEmptyBucketName
  else
    (* If not, create it. *)
    let* _ := DB_Update (Database_db db)
                (let* _ := Tx_CreateBucketIfNotExists name in ret tt) in
    (* Return the collection object. *)
    ret {| Collection_db := db; Collection_name := name |}.

Definition CollectionMust (db : Database) (name : string) : M Collection :=
  fun w =>
    match Database_Collection db name w with
    | (Err _, w') => (Panic, w')
    | r => r
    end.

Definition Name (c : Collection) : string := Collection_name c.

Definition Collection_Database (c : Collection) : Database := Collection_db c.

Definition Drop (c : Collection) : M unit :=
  DB_Update (Database_db (Collection_db c))
    (Tx_DeleteBucket (Collection_name c)).

Definition InsertOne (c : Collection) (doc : value) : M InsertID :=
  (* Validate the document. Is it a struct or a map? *)
  let t := reflect_TypeOf doc in
  let* k := Kind_of t in
  if bool_decide (k ≠ reflect_Struct) && bool_decide (k ≠ reflect_Map)
  then raise ErrInvalidType
  else
    (* If it's a struct, convert it to a map. *)
    let* m := (if bool_decide (k = reflect_Struct)
               then call_structs_Map doc
               else ret None) in
    let* m := (if bool_decide (k = reflect_Map)
               then
                 (* Can the map be converted to a map[string]interface{}? *)
                 match assert_map doc with
                 | Some m' => ret m'
                 | None => raise ErrInvalidType
                 end
               else ret m) in
    (* Check if doc has an _id field.
       If not, generate one and add it to the doc. *)
    let* r := map_index m "_id" in
    let* id := match r with
               | Some id => ret id
               | None =>
                   let* id := NewObjectID in
                   let* _ := map_assign m "_id" id in
                   ret id
               end in
    (* Validate the id and marshal it into bytes. *)
    let* bid := MarshalValue id in
    (* Marshal the document into bytes. *)
    let* bdoc := Marshal m in
    (* Insert the document. *)
    let* _ := DB_Update (Database_db (Collection_db c))
                (let* b := Tx_Bucket (Collection_name c) in
                 Bucket_Put b bid bdoc) in
    (* Return the _id of the inserted document. *)
    ret id.

Definition GetByID (c : Collection) (id : value) : M value :=
  let* bid := MarshalValue id in
  let* doc := DB_View (Database_db (Collection_db c))
                (let* b := Tx_Bucket (Collection_name c) in
                 let* doc := Bucket_Get b bid in
                 match doc with
                 | None => raise (errors_New "document not found")
                 | Some doc => ret doc
                 end) in
  let* m := Unmarshal doc in
  ret (VMap m).

(** The methods below are stubs in the source: each returns its zero
    results and a nil error.  A nil slice is the empty list, a nil pointer
    is [None]. *)
Definition InsertMany (c : Collection) (docs : list value) : M (list InsertID) :=
  ret [].

Definition Find (c : Collection) (filter : value) : M (option MultiResult) :=
  ret None.

Definition FindOne (c : Collection) (filter result : value) : M (option SingleResult) :=
  ret None.

Definition CountDocuments (c : Collection) (filter : value) : M Z :=
  ret 0.

Definition UpdateOne (c : Collection) (doc : value) : M (option UpdateResult) :=
  ret None.

Definition UpdateMany (c : Collection) (docs : list value) : M (option UpdateResult) :=
  ret None.

Definition DeleteOne (c : Collection) (filter : value) : M (option DeleteResult) :=
  ret None.

Definition DeleteMany (c : Collection) (filter : list value) : M (option DeleteResult) :=
  ret None.

End Mingodb.

(** ** A small instance of the collaborators

    A codec for flat documents whose values are strings, 32-bit integers
    and ObjectIDs, in the manner of BSON elements (a type tag, the key as a
    C string, the payload); a struct flattener for flat structs; a generator
    that counts.  The general theorems do not depend on it: it is there to
    run the methods on concrete documents. *)
Module Sample.

Definition byte_at (n : Z) (i : Z) : ascii :=
  ascii_of_N (Z.to_N ((n / 2 ^ (8 * i)) `mod` 256)).

(** Little-endian 32-bit integer. *)
Definition le32 (n : Z) : bytes :=
  String (byte_at n 0) (String (byte_at n 1)
    (String (byte_at n 2) (String (byte_at n 3) EmptyString))).

Fixpoint un_le (b : bytes) : Z :=
  match b with
  | EmptyString => 0
  | String a r => Z.of_N (N_of_ascii a) + 256 * un_le r
  end.

(** The key of an element: the bytes up to the first zero byte. *)
Fixpoint cstring (b : bytes) : option (string * bytes) :=
  match b with
  | EmptyString => None
  | String a r =>
      if Ascii.eqb a Ascii.zero then Some (EmptyString, r)
      else match cstring r with
           | Some (k, r') => Some (String a k, r')
           | None => None
           end
  end.

Fixpoint has_zero (s : string) : bool :=
  match s with
  | EmptyString => false
  | String a r => Ascii.eqb a Ascii.zero || has_zero r
  end.

Fixpoint take (n : nat) (b : bytes) : option (bytes * bytes) :=
  match n, b with
  | O, _ => Some (EmptyString, b)
  | S n, String a r =>
      match take n r with
      | Some (x, r') => Some (String a x, r')
      | None => None
      end
  | S _, EmptyString => None
  end.

Definition tag_string : ascii := ascii_of_nat 2.
Definition tag_objectID : ascii := ascii_of_nat 7.
Definition tag_int32 : ascii := ascii_of_nat 16.

Definition encode_value (v : value) : outcome (ascii * bytes) :=
  match v with
  | VString s =>
      if len s <? 2 ^ 31 then Ok (tag_string, le32 (len s) +:+ s)
      else Err (ErrCodec "string too long")
  | VObjectID o =>
      if len o =? 12 then Ok (tag_objectID, o)
      else Err (ErrCodec "malformed ObjectID")
  | VInt n =>
      if (0 <=? n) && (n <? 2 ^ 31) then Ok (tag_int32, le32 n)
      else Err (ErrCodec "integer out of range")
  | _ => Err (ErrCodec "no encoder found")
  end.

Definition MarshalValue (h : Heap) (v : value) : outcome bytes :=
  match encode_value v with
  | Ok (_, b) => Ok b
  | Err e => Err e
  | Panic => Panic
  end.

Fixpoint encode_elements (es : list (string * value)) : outcome bytes :=
  match es with
  | [] => Ok EmptyString
  | (k, v) :: es =>
      if has_zero k then Err (ErrCodec "key contains a zero byte")
      else match encode_value v, encode_elements es with
           | Ok (t, b), Ok r => Ok (String t (k +:+ String Ascii.zero (b +:+ r)))
           | Err e, _ => Err e
           | _, Err e => Err e
           | _, _ => Panic
           end
  end.

Definition Marshal (h : Heap) (m : fields) : outcome bytes :=
  encode_elements (map_to_list m).

Definition decode_value (t : ascii) (b : bytes) : option (value * bytes) :=
  if Ascii.eqb t tag_string then
    match take 4 b with
    | Some (l, r) =>
        match take (Z.to_nat (un_le l)) r with
        | Some (s, r') => Some (VString s, r')
        | None => None
        end
    | None => None
    end
  else if Ascii.eqb t tag_objectID then
    match take 12 b with
    | Some (o, r) => Some (VObjectID o, r)
    | None => None
    end
  else if Ascii.eqb t tag_int32 then
    match take 4 b with
    | Some (n, r) => Some (VInt (un_le n), r)
    | None => None
    end
  else None.

Fixpoint decode_elements (fuel : nat) (b : bytes) : option (list (string * value)) :=
  match fuel, b with
  | _, EmptyString => Some []
  | O, _ => None
  | S fuel, String t r =>
      match cstring r with
      | Some (k, r1) =>
          match decode_value t r1 with
          | Some (v, r2) =>
              match decode_elements fuel r2 with
              | Some es => Some ((k, v) :: es)
              | None => None
              end
          | None => None
          end
      | None => None
      end
  end.

Definition Unmarshal (b : bytes) : outcome fields :=
  match decode_elements (String.length b) b with
  | Some es => Ok (list_to_map es)
  | None => Err (ErrCodec "malformed document")
  end.

(** Flat structs: the fields as they are. *)
Definition Map (doc : value) (h : Heap) : fields * Heap :=
  match doc with
  | VStruct _ fs => (list_to_map fs, h)
  | _ => (∅, h)
  end.

(** The generator: a zero timestamp, five process bytes, and the low three
    bytes of a counter, most significant first. *)
Definition NewObjectID (counter : Z) : bytes * Z :=
  let n := counter + 1 in
  (String Ascii.zero (String Ascii.zero (String Ascii.zero (String Ascii.zero
     (String "m" (String "i" (String "n" (String "g" (String "o"
       (String (byte_at n 2) (String (byte_at n 1)
          (String (byte_at n 0) EmptyString))))))))))),
   n `mod` 2 ^ 32).

#[export] Instance externals : Externals := {|
  ObjectIDState := Z;
  primitive_NewObjectID := NewObjectID;
  structs_Map := Map;
  bson_MarshalValue := MarshalValue;
  bson_Marshal := Marshal;
  bson_Unmarshal := Unmarshal;
|}.

(** A world with one open database, at pointer 0, that holds the empty
    collection ["users"], and one map object, at pointer 0:
    [{"name": "Ann"}]. *)
Definition ann : fields := {[ "name" := VString "Ann" ]}.

Definition world0 : World := {|
  heap := [ann];
  dbs := [ {| opened := true; data := {[ "users" := ∅ ]} |} ];
  idgen := 0;
|}.

Definition db0 : Database := {| Path := "mingo.db"; Database_db := 0%nat |}.

Definition users : Collection := {| Collection_db := db0; Collection_name := "users" |}.

End Sample.

(** * Properties *)

Section Properties.
Context `{E : Externals}.

(** ** Running a computation *)

Lemma bind_Ok {S A B} (c : ST S A) (k : A -> ST S B) s a s' :
  c s = (Ok a, s') -> bind c k s = k a s'.
Proof. intros Hc. unfold bind. rewrite Hc. reflexivity. Qed.

Lemma bind_Err {S A B} (c : ST S A) (k : A -> ST S B) s e s' :
  c s = (Err e, s') -> bind c k s = (Err e, s').
Proof. intros Hc. unfold bind. rewrite Hc. reflexivity. Qed.

Lemma bind_Panic {S A B} (c : ST S A) (k : A -> ST S B) s s' :
  c s = (Panic, s') -> bind c k s = (Panic, s').
Proof. intros Hc. unfold bind. rewrite Hc. reflexivity. Qed.

(** A successful [bind] splits into its two steps. *)
Lemma bind_Ok_inv {S A B} (c : ST S A) (k : A -> ST S B) s b s2 :
  bind c k s = (Ok b, s2) ->
  exists a s1, c s = (Ok a, s1) /\ k a s1 = (Ok b, s2).
Proof.
  unfold bind. destruct (c s) as [[a|e|] s1]; intros Hk; try discriminate.
  exists a, s1. split; [reflexivity | exact Hk].
Qed.

(** ** The engine *)

(** The collection can be used: its database is open and holds its keyspace. *)
Definition ready (c : Collection) (w : World) : bool :=
  match dbs w !! Database_db (Collection_db c) with
  | Some d =>
      opened d && bool_decide (is_Some (data d !! Collection_name c))
  | None => false
  end.

(** The keyspace of the collection. *)
Definition keyspace (c : Collection) (w : World) : option (gmap string string) :=
  dbs w !! Database_db (Collection_db c) ≫= fun d => data d !! Collection_name c.

(** The record of the collection under a key. *)
Definition record (c : Collection) (w : World) (key : bytes) : option bytes :=
  keyspace c w ≫= fun b => b !! key.

Lemma ready_inv c w :
  ready c w = true ->
  exists d b, dbs w !! Database_db (Collection_db c) = Some d
              /\ opened d = true /\ data d !! Collection_name c = Some b.
Proof.
  unfold ready. destruct (dbs w !! _) as [d|]; [|discriminate].
  intros [Ho Hb]%andb_prop. apply bool_decide_eq_true in Hb as [b Hb].
  exists d, b. auto.
Qed.

Lemma ready_keyspace c w : ready c w = true -> is_Some (keyspace c w).
Proof.
  intros (d & b & Hd & _ & Hb)%ready_inv. exists b.
  unfold keyspace. rewrite Hd. exact Hb.
Qed.

Lemma alter_insert_bucket (tx : gmap string (gmap string string)) name b key val :
  tx !! name = Some b ->
  alter (insert key val) name tx = <[name := <[key := val]> b]> tx.
Proof.
  intros Hb. apply map_eq. intros n.
  destruct (decide (name = n)) as [<-|Hne].
  - rewrite lookup_alter_eq, lookup_insert_eq, Hb. reflexivity.
  - rewrite lookup_alter_ne, lookup_insert_ne by exact Hne. reflexivity.
Qed.

(** The transaction of [InsertOne] on a world where the collection is ready
    and the key and the value pass the checks of [Put]. *)
Definition put_tx (c : Collection) (bid bdoc : bytes) : ST Tx unit :=
  let* b := Tx_Bucket (Collection_name c) in
  Bucket_Put b bid bdoc.

Definition key_ok (bid : bytes) : bool :=
  (0 <? len bid) && (len bid <=? MaxKeySize).

Definition value_ok (bdoc : bytes) : bool :=
  len bdoc <=? MaxValueSize.

Lemma put_tx_run c bid bdoc tx b :
  tx !! Collection_name c = Some b ->
  key_ok bid = true -> value_ok bdoc = true ->
  put_tx c bid bdoc tx =
    (Ok tt, <[Collection_name c := <[bid := bdoc]> b]> tx).
Proof.
  intros Hb [Hk1 Hk2]%andb_prop Hv.
  unfold put_tx, bind, Tx_Bucket, Bucket_Put. rewrite Hb.
  apply Z.ltb_lt in Hk1. apply Z.leb_le in Hk2. apply Z.leb_le in Hv.
  destruct (Z.eqb_spec (len bid) 0) as [H0|_]; [lia|].
  destruct (Z.ltb_spec MaxKeySize (len bid)); [lia|].
  destruct (Z.ltb_spec MaxValueSize (len bdoc)); [lia|].
  rewrite (alter_insert_bucket _ _ b) by exact Hb. reflexivity.
Qed.

(** The world after a committed put. *)
Definition stored (c : Collection) (bid bdoc : bytes) (w : World) : World :=
  match dbs w !! Database_db (Collection_db c) with
  | Some d =>
      match data d !! Collection_name c with
      | Some b =>
          {| heap := heap w;
             dbs := <[Database_db (Collection_db c) :=
                        {| opened := true;
                           data := <[Collection_name c := <[bid := bdoc]> b]> (data d) |}]>
                      (dbs w);
             idgen := idgen w |}
      | None => w
      end
  | None => w
  end.

Lemma Update_put_run c bid bdoc w :
  ready c w = true -> key_ok bid = true -> value_ok bdoc = true ->
  DB_Update (Database_db (Collection_db c)) (put_tx c bid bdoc) w
  = (Ok tt, stored c bid bdoc w).
Proof.
  intros (d & b & Hd & Ho & Hb)%ready_inv Hk Hv.
  unfold DB_Update, stored. rewrite Hd, Ho, Hb.
  rewrite (put_tx_run c bid bdoc (data d) b Hb Hk Hv). reflexivity.
Qed.

Lemma stored_heap c bid bdoc w : heap (stored c bid bdoc w) = heap w.
Proof.
  unfold stored. destruct (dbs w !! _) as [d|]; [|reflexivity].
  destruct (data d !! _); reflexivity.
Qed.

Lemma stored_idgen c bid bdoc w : idgen (stored c bid bdoc w) = idgen w.
Proof.
  unfold stored. destruct (dbs w !! _) as [d|]; [|reflexivity].
  destruct (data d !! _); reflexivity.
Qed.

Lemma stored_keyspace c bid bdoc w b :
  keyspace c w = Some b ->
  keyspace c (stored c bid bdoc w) = Some (<[bid := bdoc]> b).
Proof.
  unfold keyspace, stored. intros Hk.
  destruct (dbs w !! Database_db (Collection_db c)) as [d|] eqn:Hd; [|discriminate].
  simpl in Hk. rewrite Hk. simpl.
  rewrite list_lookup_insert_eq by (eapply lookup_lt_Some; exact Hd).
  simpl. apply lookup_insert_eq.
Qed.

Lemma stored_ready c bid bdoc w :
  ready c w = true -> ready c (stored c bid bdoc w) = true.
Proof.
  intros Hr. destruct (ready_inv c w Hr) as (d & b & Hd & Ho & Hb).
  unfold ready, stored. rewrite Hd, Hb. simpl.
  rewrite list_lookup_insert_eq by (eapply lookup_lt_Some; exact Hd).
  simpl. apply bool_decide_eq_true. rewrite lookup_insert_eq. eauto.
Qed.

(** ** The steps of [InsertOne] *)

(** Normalisation, the first half of [InsertOne]: the pointer to the map
    object that holds the fields of the document, and the heap in which it
    lives.  A struct is flattened into a new map object, a non-nil
    [map[string]interface{}] is used as it is; nothing else is a document. *)
Definition normalize (doc : value) (h : Heap) : option (loc * Heap) :=
  match doc with
  | VStruct _ _ =>
      let '(content, h1) := structs_Map doc h in
      Some (length h1, h1 ++ [content])
  | VMap (Some l) =>
      match h !! l with
      | Some _ => Some (l, h)
      | None => None
      end
  | _ => None
  end.

(** The second half of [InsertOne], from the lookup of [_id] on. *)
Definition insert_normalized (c : Collection) (m : option loc) : M InsertID :=
  let* r := map_index m "_id" in
  let* id := match r with
             | Some id => ret id
             | None =>
                 let* id := NewObjectID in
                 let* _ := map_assign m "_id" id in
                 ret id
             end in
  let* bid := MarshalValue id in
  let* bdoc := Marshal m in
  let* _ := DB_Update (Database_db (Collection_db c)) (put_tx c bid bdoc) in
  ret id.

Lemma InsertOne_VMap c r : InsertOne c (VMap r) = insert_normalized c r.
Proof. reflexivity. Qed.

Lemma InsertOne_VStruct c n fs :
  InsertOne c (VStruct n fs)
  = (let* m := call_structs_Map (VStruct n fs) in insert_normalized c m).
Proof. reflexivity. Qed.

(** Step 3 of the specification of [InsertOne], "determine [_id]": the
    identifier, the fields that are persisted and the state of the
    generator afterwards. *)
Definition determine_id (content : fields) (g : ObjectIDState)
  : value * fields * ObjectIDState :=
  match content !! "_id" with
  | Some id => (id, content, g)
  | None =>
      let '(o, g') := primitive_NewObjectID g in
      (VObjectID o, <["_id" := VObjectID o]> content, g')
  end.

(** The world in which the document is encoded: the map object holds the
    persisted fields, the generator has moved on. *)
Definition prepared (l : loc) (content' : fields) (g' : ObjectIDState)
    (h : Heap) (w : World) : World :=
  {| heap := <[l := content']> h; dbs := dbs w; idgen := g' |}.

Lemma ready_dbs c w w' : dbs w' = dbs w -> ready c w' = ready c w.
Proof. intros Hd. unfold ready. rewrite Hd. reflexivity. Qed.

Lemma insert_normalized_run c l w content id content' g' bid bdoc :
  heap w !! l = Some content ->
  determine_id content (idgen w) = (id, content', g') ->
  bson_MarshalValue (<[l := content']> (heap w)) id = Ok bid ->
  bson_Marshal (<[l := content']> (heap w)) content' = Ok bdoc ->
  key_ok bid = true -> value_ok bdoc = true -> ready c w = true ->
  insert_normalized c (Some l) w
  = (Ok id, stored c bid bdoc (prepared l content' g' (heap w) w)).
Proof.
  intros Hl Hid Hbid Hbdoc Hk Hv Hr.
  assert (Hlt : (l < length (heap w))%nat) by (eapply lookup_lt_Some; exact Hl).
  unfold insert_normalized, map_index.
  unfold determine_id in Hid.
  rewrite (bind_Ok _ _ w (content !! "_id") w)
    by (unfold bind, map_content, ret; rewrite Hl; reflexivity).
  destruct (content !! "_id") as [v|] eqn:Hv0.
  - (* the document brings its _id *)
    injection Hid as <- <- <-.
    rewrite (list_insert_id _ _ _ Hl) in Hbid, Hbdoc.
    assert (Hw : prepared l content (idgen w) (heap w) w = w).
    { unfold prepared. rewrite (list_insert_id _ _ _ Hl). destruct w; reflexivity. }
    rewrite Hw.
    rewrite (bind_Ok _ _ w v w) by reflexivity.
    rewrite (bind_Ok _ _ w bid w) by (unfold MarshalValue; rewrite Hbid; reflexivity).
    rewrite (bind_Ok _ _ w bdoc w)
      by (unfold Marshal, bind, map_content; rewrite Hl, Hbdoc; reflexivity).
    rewrite (bind_Ok _ _ w tt (stored c bid bdoc w))
      by (apply Update_put_run; assumption).
    reflexivity.
  - (* the _id is generated and written into the map *)
    destruct (primitive_NewObjectID (idgen w)) as [o g] eqn:Hgen.
    injection Hid as <- <- <-.
    set (w1 := prepared l (<["_id" := VObjectID o]> content) g (heap w) w).
    rewrite (bind_Ok _ _ w (VObjectID o) w1).
    2:{ unfold bind, NewObjectID, map_assign. rewrite Hgen. simpl.
        rewrite Hl. reflexivity. }
    rewrite (bind_Ok _ _ w1 bid w1)
      by (unfold MarshalValue, w1, prepared; simpl; rewrite Hbid; reflexivity).
    rewrite (bind_Ok _ _ w1 bdoc w1).
    2:{ unfold Marshal, bind, map_content, w1, prepared. simpl.
        rewrite list_lookup_insert_eq by exact Hlt. simpl.
        rewrite Hbdoc. reflexivity. }
    rewrite (bind_Ok _ _ w1 tt (stored c bid bdoc w1)).
    2:{ apply Update_put_run; assumption. }
    reflexivity.
Qed.

(** [InsertOne] on a document: the identifier is the one that
    [determine_id] gives, the map object holds the persisted fields, and the
    record is stored under the encoded identifier. *)
Lemma InsertOne_run c doc w l h0 content id content' g' bid bdoc :
  normalize doc (heap w) = Some (l, h0) ->
  h0 !! l = Some content ->
  determine_id content (idgen w) = (id, content', g') ->
  bson_MarshalValue (<[l := content']> h0) id = Ok bid ->
  bson_Marshal (<[l := content']> h0) content' = Ok bdoc ->
  key_ok bid = true -> value_ok bdoc = true -> ready c w = true ->
  InsertOne c doc w
  = (Ok id, stored c bid bdoc (prepared l content' g' h0 w)).
Proof.
  intros Hn Hl Hid Hbid Hbdoc Hk Hv Hr.
  destruct doc as [| | | | | | |n fs| |[r|]|]; try discriminate Hn.
  - (* a struct *)
    rewrite InsertOne_VStruct. simpl in Hn.
    destruct (structs_Map (VStruct n fs) (heap w)) as [content0 h1] eqn:Hs.
    injection Hn as <- <-.
    set (w0 := {| heap := h1 ++ [content0]; dbs := dbs w; idgen := idgen w |}).
    rewrite (bind_Ok _ _ w (Some (length h1)) w0)
      by (unfold call_structs_Map, new_map; rewrite Hs; reflexivity).
    rewrite (insert_normalized_run c (length h1) w0 content id content' g' bid bdoc);
      try assumption; reflexivity.
  - (* a map[string]interface{} *)
    rewrite InsertOne_VMap. simpl in Hn.
    destruct (heap w !! r) eqn:Hh; [|discriminate].
    injection Hn as <- <-.
    apply insert_normalized_run with (content := content); assumption.
Qed.

(** ** The steps of [GetByID] *)

(** The transaction of [GetByID]. *)
Definition get_tx (c : Collection) (bid : bytes) : ST Tx bytes :=
  let* b := Tx_Bucket (Collection_name c) in
  let* doc := Bucket_Get b bid in
  match doc with
  | None => raise (errors_New "document not found")
  | Some doc => ret doc
  end.

Lemma get_tx_run c bid tx b :
  tx !! Collection_name c = Some b ->
  (get_tx c bid tx).1
  = match b !! bid with
    | Some doc => Ok doc
    | None => Err (errors_New "document not found")
    end.
Proof.
  intros Hb. unfold get_tx, bind, Tx_Bucket, Bucket_Get. rewrite Hb. simpl.
  rewrite Hb. simpl. destruct (b !! bid); reflexivity.
Qed.

Lemma View_get_run c bid w :
  ready c w = true ->
  DB_View (Database_db (Collection_db c)) (get_tx c bid) w
  = (match record c w bid with
     | Some doc => Ok doc
     | None => Err (errors_New "document not found")
     end, w).
Proof.
  intros (d & b & Hd & Ho & Hb)%ready_inv.
  unfold DB_View, record, keyspace. rewrite Hd, Ho. simpl.
  rewrite (get_tx_run c bid (data d) b Hb), Hb. reflexivity.
Qed.

Lemma GetByID_steps c id :
  GetByID c id
  = (let* bid := MarshalValue id in
     let* doc := DB_View (Database_db (Collection_db c)) (get_tx c bid) in
     let* m := Unmarshal doc in
     ret (VMap m)).
Proof. reflexivity. Qed.

Lemma GetByID_found c id w bid bdoc content :
  bson_MarshalValue (heap w) id = Ok bid ->
  ready c w = true ->
  record c w bid = Some bdoc ->
  bson_Unmarshal bdoc = Ok content ->
  GetByID c id w
  = (Ok (VMap (Some (length (heap w)))),
     {| heap := heap w ++ [content]; dbs := dbs w; idgen := idgen w |}).
Proof.
  intros Hbid Hr Hrec Hdec. rewrite GetByID_steps.
  rewrite (bind_Ok _ _ w bid w) by (unfold MarshalValue; rewrite Hbid; reflexivity).
  rewrite (bind_Ok _ _ w bdoc w)
    by (rewrite (View_get_run c bid w Hr), Hrec; reflexivity).
  unfold Unmarshal, bind, lift, new_map, ret. rewrite Hdec. reflexivity.
Qed.

Lemma GetByID_absent c id w bid :
  bson_MarshalValue (heap w) id = Ok bid ->
  ready c w = true ->
  record c w bid = None ->
  GetByID c id w = (Err (errors_New "document not found"), w).
Proof.
  intros Hbid Hr Hrec. rewrite GetByID_steps.
  rewrite (bind_Ok _ _ w bid w) by (unfold MarshalValue; rewrite Hbid; reflexivity).
  apply bind_Err. rewrite (View_get_run c bid w Hr), Hrec. reflexivity.
Qed.

Lemma stored_record c bid bdoc w :
  ready c w = true -> record c (stored c bid bdoc w) bid = Some bdoc.
Proof.
  intros [b Hb]%ready_keyspace. unfold record.
  rewrite (stored_keyspace c bid bdoc w b Hb). simpl. apply lookup_insert_eq.
Qed.

(** ** Insert, then read back *)

Context {L : ExternalsLaws E}.

Lemma ObjectID_key_ok o : String.length o = 12%nat -> key_ok o = true.
Proof. intros Ho. unfold key_ok, len. rewrite Ho. reflexivity. Qed.

Lemma determine_id_fresh content g o g' :
  content !! "_id" = None ->
  primitive_NewObjectID g = (o, g') ->
  determine_id content g = (VObjectID o, <["_id" := VObjectID o]> content, g').
Proof. intros Hn Hg. unfold determine_id. rewrite Hn, Hg. reflexivity. Qed.

Lemma determine_id_given content g id :
  content !! "_id" = Some id -> determine_id content g = (id, content, g).
Proof. intros Hs. unfold determine_id. rewrite Hs. reflexivity. Qed.

Lemma NewObjectID_12 g o g' :
  primitive_NewObjectID g = (o, g') -> String.length o = 12%nat.
Proof. intros Hg. pose proof (NewObjectID_length g) as H. rewrite Hg in H. exact H. Qed.

(** C1. For a valid document without [_id] (a struct or a non-nil map that
    normalises to [content], whose fields with the identifier added are
    encoded by the codec into bytes that the engine accepts and that decode
    to the same fields), in a collection that is ready, [InsertOne] returns
    the identifier [o] that the generator yields at this call, and
    [GetByID] of that identifier then returns a map whose fields are those
    of the document plus [_id := o]. *)
Theorem InsertOne_then_GetByID c doc w l h0 content o g bdoc :
  normalize doc (heap w) = Some (l, h0) ->
  h0 !! l = Some content ->
  content !! "_id" = None ->
  primitive_NewObjectID (idgen w) = (o, g) ->
  bson_Marshal (<[l := <["_id" := VObjectID o]> content]> h0)
               (<["_id" := VObjectID o]> content) = Ok bdoc ->
  value_ok bdoc = true ->
  bson_Unmarshal bdoc = Ok (<["_id" := VObjectID o]> content) ->
  ready c w = true ->
  exists w1,
    InsertOne c doc w = (Ok (VObjectID o), w1)
    /\ idgen w1 = g
    /\ exists r w2,
         GetByID c (VObjectID o) w1 = (Ok (VMap (Some r)), w2)
         /\ heap w2 !! r = Some (<["_id" := VObjectID o]> content).
Proof.
  intros Hn Hl Hnone Hgen Henc Hv Hdec Hr.
  pose proof (NewObjectID_12 _ _ _ Hgen) as Ho.
  set (content' := <["_id" := VObjectID o]> content) in *.
  set (w1 := stored c o bdoc (prepared l content' g h0 w)).
  assert (Hr1 : ready c w1 = true).
  { apply stored_ready. exact Hr. }
  exists w1. split; [|split].
  - apply InsertOne_run with (content := content); try assumption.
    + apply determine_id_fresh; assumption.
    + apply MarshalValue_ObjectID, Ho.
    + apply ObjectID_key_ok, Ho.
  - unfold w1. rewrite stored_idgen. reflexivity.
  - eexists _, _. split.
    + apply GetByID_found with (bid := o) (bdoc := bdoc) (content := content').
      * apply MarshalValue_ObjectID, Ho.
      * exact Hr1.
      * apply stored_record. exact Hr.
      * exact Hdec.
    + simpl. apply list_lookup_middle. reflexivity.
Qed.

(** C5. In a collection that is ready, when the identifier is encoded into
    [bid] and the keyspace has no record under [bid], [GetByID] fails with
    the not-found error, changes nothing, and so returns no document. *)
Theorem GetByID_not_found c id w bid :
  bson_MarshalValue (heap w) id = Ok bid ->
  ready c w = true ->
  record c w bid = None ->
  GetByID c id w = (Err (errors_New "document not found"), w)
  /\ forall v, (GetByID c id w).1 <> Ok v.
Proof.
  intros Hbid Hr Hrec.
  rewrite (GetByID_absent c id w bid Hbid Hr Hrec).
  split; [reflexivity | discriminate].
Qed.

(** ** The identifier and the stored record *)

(** C2. In a collection that is ready, for a document that normalises to
    [content]:
    - when [content] has an [_id], [InsertOne] returns exactly that value,
      stores the record under its encoding, and draws nothing from the
      generator;
    - when [content] has none, [InsertOne] draws an identifier from the
      generator, which has 12 bytes, writes it into the map under [_id]
      before the document is encoded, stores the record under it and
      returns it. *)
Theorem InsertOne_identifier c doc w l h0 content :
  normalize doc (heap w) = Some (l, h0) ->
  h0 !! l = Some content ->
  ready c w = true ->
  (forall id bid bdoc,
      content !! "_id" = Some id ->
      bson_MarshalValue h0 id = Ok bid -> key_ok bid = true ->
      bson_Marshal h0 content = Ok bdoc -> value_ok bdoc = true ->
      exists w1,
        InsertOne c doc w = (Ok id, w1)
        /\ record c w1 bid = Some bdoc
        /\ idgen w1 = idgen w
        /\ heap w1 = h0)
  /\ (forall o g bdoc,
      content !! "_id" = None ->
      primitive_NewObjectID (idgen w) = (o, g) ->
      bson_Marshal (<[l := <["_id" := VObjectID o]> content]> h0)
                   (<["_id" := VObjectID o]> content) = Ok bdoc ->
      value_ok bdoc = true ->
      exists w1,
        InsertOne c doc w = (Ok (VObjectID o), w1)
        /\ String.length o = 12%nat
        /\ idgen w1 = g
        /\ heap w1 !! l = Some (<["_id" := VObjectID o]> content)
        /\ record c w1 o = Some bdoc).
Proof.
  intros Hn Hl Hr. split.
  - intros id bid bdoc Hid Hbid Hk Hbdoc Hv.
    exists (stored c bid bdoc (prepared l content (idgen w) h0 w)).
    split; [|split; [|split]].
    + apply InsertOne_run with (content := content); try assumption.
      * apply determine_id_given, Hid.
      * rewrite (list_insert_id _ _ _ Hl). exact Hbid.
      * rewrite (list_insert_id _ _ _ Hl). exact Hbdoc.
    + apply stored_record. exact Hr.
    + rewrite stored_idgen. reflexivity.
    + rewrite stored_heap. simpl. apply list_insert_id, Hl.
  - intros o g bdoc Hnone Hgen Hbdoc Hv.
    pose proof (NewObjectID_12 _ _ _ Hgen) as Ho.
    exists (stored c o bdoc (prepared l (<["_id" := VObjectID o]> content) g h0 w)).
    split; [|split; [|split; [|split]]].
    + apply InsertOne_run with (content := content); try assumption.
      * apply determine_id_fresh; assumption.
      * apply MarshalValue_ObjectID, Ho.
      * apply ObjectID_key_ok, Ho.
    + exact Ho.
    + rewrite stored_idgen. reflexivity.
    + rewrite stored_heap. simpl. apply list_lookup_insert_eq.
      eapply lookup_lt_Some, Hl.
    + apply stored_record. exact Hr.
Qed.

Lemma stored_record_ne c bid bdoc w k :
  k <> bid -> record c (stored c bid bdoc w) k = record c w k.
Proof.
  intros Hne. unfold record, keyspace, stored.
  destruct (dbs w !! Database_db (Collection_db c)) as [d|] eqn:Hd;
    [|rewrite Hd; reflexivity].
  destruct (data d !! Collection_name c) as [b|] eqn:Hb;
    [|rewrite Hd; reflexivity].
  simpl. rewrite list_lookup_insert_eq by (eapply lookup_lt_Some; exact Hd).
  simpl. rewrite lookup_insert_eq, Hb. simpl.
  apply lookup_insert_ne. congruence.
Qed.

(** C3. The put of [InsertOne] is one [Update] transaction on the keyspace
    of the collection; when the keyspace already holds a record under the
    key of the document, [InsertOne] succeeds all the same, the record is
    replaced by the new one, the other records stay, and the keyspace has as
    many records as before. *)
Theorem InsertOne_overwrites c doc w l h0 content id content' g' bid bdoc b old :
  normalize doc (heap w) = Some (l, h0) ->
  h0 !! l = Some content ->
  determine_id content (idgen w) = (id, content', g') ->
  bson_MarshalValue (<[l := content']> h0) id = Ok bid ->
  bson_Marshal (<[l := content']> h0) content' = Ok bdoc ->
  key_ok bid = true -> value_ok bdoc = true ->
  ready c w = true ->
  keyspace c w = Some b ->
  b !! bid = Some old ->
  exists w0 w1,
    InsertOne c doc w = (Ok id, w1)
    /\ dbs w0 = dbs w
    /\ DB_Update (Database_db (Collection_db c)) (put_tx c bid bdoc) w0 = (Ok tt, w1)
    /\ keyspace c w1 = Some (<[bid := bdoc]> b)
    /\ record c w1 bid = Some bdoc
    /\ (forall k, k <> bid -> record c w1 k = record c w k)
    /\ size (<[bid := bdoc]> b) = size b.
Proof.
  intros Hn Hl Hid Hbid Hbdoc Hk Hv Hr Hb Hold.
  exists (prepared l content' g' h0 w), (stored c bid bdoc (prepared l content' g' h0 w)).
  split; [|split; [|split; [|split; [|split; [|split]]]]].
  - apply InsertOne_run with (content := content); assumption.
  - reflexivity.
  - apply Update_put_run; assumption.
  - apply stored_keyspace. exact Hb.
  - apply stored_record. exact Hr.
  - intros k Hne. rewrite stored_record_ne by exact Hne. reflexivity.
  - apply map_size_insert_Some. exists old. exact Hold.
Qed.

(** ** The caller's map *)

(** The end of [InsertOne], once the identifier is known. *)
Definition persist (c : Collection) (m : option loc) (id : value) : M InsertID :=
  let* bid := MarshalValue id in
  let* bdoc := Marshal m in
  let* _ := DB_Update (Database_db (Collection_db c)) (put_tx c bid bdoc) in
  ret id.

Lemma DB_Update_heap {A} p (fn : ST Tx A) w : heap (DB_Update p fn w).2 = heap w.
Proof.
  unfold DB_Update. destruct (dbs w !! p) as [d|]; [|reflexivity].
  destruct (opened d); [|reflexivity].
  destruct (fn (data d)) as [[a|e|] tx]; reflexivity.
Qed.

Lemma Marshal_state m w : (Marshal m w).2 = w.
Proof.
  unfold Marshal, bind, map_content. destruct m as [l|]; [|reflexivity].
  destruct (heap w !! l); reflexivity.
Qed.

Lemma bind_heap {A B} (c : M A) (k : A -> M B) w :
  (forall w, heap (c w).2 = heap w) ->
  (forall a w, heap (k a w).2 = heap w) ->
  heap (bind c k w).2 = heap w.
Proof.
  intros Hc Hk. unfold bind. specialize (Hc w).
  destruct (c w) as [[a|e|] w']; simpl in Hc |- *; [|exact Hc ..].
  rewrite Hk. exact Hc.
Qed.

(** [persist] leaves the heap alone, whatever its outcome, and what it
    returns is the identifier. *)
Lemma persist_heap c m id w : heap (persist c m id w).2 = heap w.
Proof.
  unfold persist. apply bind_heap; [reflexivity|]. clear w. intros bid w.
  apply bind_heap; [intros w'; rewrite Marshal_state; reflexivity|].
  clear w. intros bdoc w.
  apply bind_heap; [intros w'; apply DB_Update_heap|]. reflexivity.
Qed.

Lemma persist_Ok c m id w v w1 : persist c m id w = (Ok v, w1) -> v = id.
Proof.
  unfold persist.
  intros (bid & wa & _ & H)%bind_Ok_inv.
  apply bind_Ok_inv in H as (bdoc & wb & _ & H).
  apply bind_Ok_inv in H as (u & wc & _ & H).
  unfold ret in H. congruence.
Qed.

Lemma insert_normalized_fresh c l w content o g :
  heap w !! l = Some content ->
  content !! "_id" = None ->
  primitive_NewObjectID (idgen w) = (o, g) ->
  insert_normalized c (Some l) w
  = persist c (Some l) (VObjectID o)
      (prepared l (<["_id" := VObjectID o]> content) g (heap w) w).
Proof.
  intros Hl Hnone Hgen.
  change (insert_normalized c (Some l))
    with (let* r := map_index (Some l) "_id" in
          let* id := match r with
                     | Some id => ret id
                     | None =>
                         let* id := NewObjectID in
                         let* _ := map_assign (Some l) "_id" id in
                         ret id
                     end in
          persist c (Some l) id).
  rewrite (bind_Ok _ _ w None w)
    by (unfold map_index, bind, map_content, ret; rewrite Hl, Hnone; reflexivity).
  apply bind_Ok.
  unfold bind, NewObjectID, map_assign. rewrite Hgen. simpl. rewrite Hl.
  reflexivity.
Qed.

(** C9. When [InsertOne] is given a map object without [_id], the map
    object of the caller holds the generated identifier under [_id] when
    the call is over, whatever its outcome; when the call succeeds, the
    value it returns is the one found there. *)
Theorem InsertOne_writes_id_into_map c l w content o g :
  heap w !! l = Some content ->
  content !! "_id" = None ->
  primitive_NewObjectID (idgen w) = (o, g) ->
  heap (InsertOne c (VMap (Some l)) w).2 !! l
  = Some (<["_id" := VObjectID o]> content)
  /\ forall v w1,
      InsertOne c (VMap (Some l)) w = (Ok v, w1) ->
      v = VObjectID o /\ heap w1 !! l = Some (<["_id" := v]> content).
Proof.
  intros Hl Hnone Hgen.
  rewrite InsertOne_VMap, (insert_normalized_fresh c l w content o g Hl Hnone Hgen).
  set (w0 := prepared l (<["_id" := VObjectID o]> content) g (heap w) w).
  pose proof (persist_heap c (Some l) (VObjectID o) w0) as Hh.
  assert (Hw0 : heap w0 !! l = Some (<["_id" := VObjectID o]> content)).
  { unfold w0, prepared. simpl. apply list_lookup_insert_eq.
    eapply lookup_lt_Some, Hl. }
  split.
  - rewrite Hh. exact Hw0.
  - intros v w1 Hrun. pose proof (persist_Ok _ _ _ _ _ _ Hrun) as ->.
    split; [reflexivity|].
    rewrite Hrun in Hh. simpl in Hh. rewrite Hh. exact Hw0.
Qed.

(** ** Documents that are rejected *)

(** A value that is not nil and whose kind is neither struct nor map is
    rejected before anything is done. *)
Lemma InsertOne_rejects_other_kinds c doc t w :
  reflect_TypeOf doc = Some t ->
  Type_Kind t <> reflect_Struct ->
  Type_Kind t <> reflect_Map ->
  InsertOne c doc w = (Err ErrInvalidType, w).
Proof.
  intros Ht Hs Hm. unfold InsertOne. rewrite Ht. unfold Kind_of.
  rewrite (bind_Ok _ _ w (Type_Kind t) w) by reflexivity.
  rewrite !bool_decide_eq_true_2 by assumption. reflexivity.
Qed.

(** A map of another type than [map[string]interface{}] fails the type
    assertion. *)
Lemma InsertOne_rejects_other_maps c n es w :
  InsertOne c (VMapOther n es) w = (Err ErrInvalidType, w).
Proof. reflexivity. Qed.

(** C10. The nil interface has no [reflect.Type], the call of [Kind] on it
    panics, and so does [InsertOne], before the validation can return
    [ErrInvalidType]; a document on which [InsertOne] does not panic is
    therefore not nil. *)
Theorem InsertOne_nil_panics c w :
  reflect_TypeOf VNil = None
  /\ InsertOne c VNil w = (Panic, w)
  /\ forall doc, (InsertOne c doc w).1 <> Panic -> doc <> VNil.
Proof.
  split; [reflexivity|]. split; [reflexivity|].
  intros doc Hnp ->. apply Hnp. reflexivity.
Qed.

(** C4, at the nil document: nil has no type, hence neither the kind of a
    struct nor that of a map, and yet the outcome of [InsertOne] is not
    [ErrInvalidType] (it is the panic above); nothing is written.  On the
    values that are not nil the rejection is as specified: see
    [InsertOne_rejects_other_kinds] and [InsertOne_rejects_other_maps]. *)
Theorem InsertOne_nil_not_ErrInvalidType c w :
  (forall t, reflect_TypeOf VNil <> Some t)
  /\ (InsertOne c VNil w).1 <> Err ErrInvalidType
  /\ (InsertOne c VNil w).2 = w.
Proof.
  split; [discriminate|]. split; [discriminate | reflexivity].
Qed.

(** ** The stubs *)

(** C6, on every collection, empty or not: [FindOne] looks at nothing and
    returns a nil result with a nil error, where its documentation and the
    specification have the first matching document, or the not-found error
    when there is none. *)
Theorem FindOne_returns_nothing c filter result w :
  FindOne c filter result w = (Ok None, w).
Proof. reflexivity. Qed.

(** C7, on every list of one document or more: [InsertMany] inserts nothing
    and returns the nil slice with a nil error, so that the identifiers are
    fewer than the documents, where its documentation and the specification
    have one identifier for each document. *)
Theorem InsertMany_returns_nothing c doc docs w :
  InsertMany c (doc :: docs) w = (Ok [], w)
  /\ length (@nil InsertID) <> length (doc :: docs).
Proof. split; [reflexivity | discriminate]. Qed.

(** ** Collections by name *)

(** [CreateBucketIfNotExists] on the root of a transaction. *)
Definition ensure_bucket (name : bytes) (tx : gmap string (gmap string string))
  : gmap string (gmap string string) :=
  match tx !! name with
  | Some _ => tx
  | None => <[name := ∅]> tx
  end.

Lemma ensure_bucket_lookup name tx :
  ensure_bucket name tx !! name = Some (default ∅ (tx !! name)).
Proof.
  unfold ensure_bucket. destruct (tx !! name) as [b|] eqn:Hb.
  - rewrite Hb. reflexivity.
  - apply lookup_insert_eq.
Qed.

Lemma ensure_bucket_idem name tx :
  ensure_bucket name (ensure_bucket name tx) = ensure_bucket name tx.
Proof.
  unfold ensure_bucket at 1. rewrite ensure_bucket_lookup. reflexivity.
Qed.

(** The world after [Collection(name)] on an open database. *)
Definition with_bucket (db : Database) (name : string) (w : World) : World :=
  match dbs w !! Database_db db with
  | Some d =>
      {| heap := heap w;
         dbs := <[Database_db db :=
                    {| opened := true; data := ensure_bucket name (data d) |}]> (dbs w);
         idgen := idgen w |}
  | None => w
  end.

Lemma Database_Collection_run db name w d :
  name <> "" ->
  dbs w !! Database_db db = Some d ->
  opened d = true ->
  Database_Collection db name w
  = (Ok {| Collection_db := db; Collection_name := name |}, with_bucket db name w).
Proof.
  intros Hne Hd Ho. unfold Database_Collection, with_bucket.
  destruct (decide (name = "")) as [?|_]; [contradiction|].
  unfold bind at 1, DB_Update. rewrite Hd, Ho.
  unfold bind, Tx_CreateBucketIfNotExists, ensure_bucket.
  destruct (decide (name = "")) as [?|_]; [contradiction|].
  destruct (data d !! name); reflexivity.
Qed.

Lemma Database_Collection_error db name w :
  (Database_Collection db name w).1 = Err ErrEmptyBucketName <-> name = "".
Proof.
  unfold Database_Collection. split.
  - destruct (decide (name = "")) as [?|Hne]; [auto|].
    unfold bind at 1, DB_Update.
    destruct (dbs w !! Database_db db) as [d|]; [|discriminate].
    destruct (opened d); [|discriminate].
    unfold bind, Tx_CreateBucketIfNotExists.
    destruct (decide (name = "")) as [?|_]; [contradiction|].
    destruct (data d !! name); discriminate.
  - intros ->. reflexivity.
Qed.

(** C8. [Collection(name)] fails with [ErrEmptyBucketName] exactly when the
    name is empty.  On an open database and for a name that is not empty it
    returns the handle of that name and of this database; afterwards the
    keyspace exists, with the records it had if it existed before and
    empty otherwise; the heap and the generator are as before; and a second
    call returns the same handle and changes nothing. *)
Theorem Collection_by_name db name w :
  ((Database_Collection db name w).1 = Err ErrEmptyBucketName <-> name = "")
  /\ forall d,
      name <> "" ->
      dbs w !! Database_db db = Some d ->
      opened d = true ->
      exists c w1,
        Database_Collection db name w = (Ok c, w1)
        /\ Name c = name
        /\ Collection_Database c = db
        /\ ready c w1 = true
        /\ keyspace c w1 = Some (default ∅ (data d !! name))
        /\ heap w1 = heap w /\ idgen w1 = idgen w
        /\ Database_Collection db name w1 = (Ok c, w1).
Proof.
  split; [apply Database_Collection_error|].
  intros d Hne Hd Ho.
  assert (Hlt : (Database_db db < length (dbs w))%nat)
    by (eapply lookup_lt_Some; exact Hd).
  set (d1 := {| opened := true; data := ensure_bucket name (data d) |}).
  assert (Hd1 : dbs (with_bucket db name w) !! Database_db db = Some d1).
  { unfold with_bucket. rewrite Hd. simpl. apply list_lookup_insert_eq, Hlt. }
  exists {| Collection_db := db; Collection_name := name |}, (with_bucket db name w).
  split; [apply Database_Collection_run with (d := d); assumption|].
  split; [reflexivity|]. split; [reflexivity|].
  split; [|split; [|split; [|split]]].
  - unfold ready. simpl. rewrite Hd1. simpl.
    apply bool_decide_eq_true. rewrite ensure_bucket_lookup. eauto.
  - unfold keyspace. simpl. rewrite Hd1. simpl. apply ensure_bucket_lookup.
  - unfold with_bucket. rewrite Hd. reflexivity.
  - unfold with_bucket. rewrite Hd. reflexivity.
  - rewrite (Database_Collection_run db name _ d1 Hne Hd1 eq_refl).
    f_equal. unfold with_bucket at 1. rewrite Hd1. simpl.
    rewrite ensure_bucket_idem. fold d1.
    rewrite (list_insert_id _ _ _ Hd1).
    destruct (with_bucket db name w); reflexivity.
Qed.

End Properties.

(** * The properties on the small instance *)

Module SampleFacts.
Import Sample.

Lemma laws : ExternalsLaws externals.
Proof.
  split.
  - intros g. reflexivity.
  - intros h o Ho. simpl. unfold MarshalValue, encode_value, len.
    rewrite Ho. reflexivity.
Qed.

(** The first identifier of the generator, and Ann's fields with it. *)
Definition oid1 : bytes := (NewObjectID 0).1.

Definition ann_with_id : fields := <["_id" := VObjectID oid1]> ann.

Definition ann_bytes : bytes :=
  match Marshal [] ann_with_id with
  | Ok b => b
  | _ => EmptyString
  end.

(** Bo, who brings the identifier 42, as a map object and as a struct. *)
Definition bo : fields := {[ "_id" := VInt 42; "name" := VString "Bo" ]}.

Definition bo_bytes : bytes :=
  match Marshal [] bo with
  | Ok b => b
  | _ => EmptyString
  end.

Definition cy_struct : value :=
  VStruct "User" [("_id", VInt 42); ("name", VString "Cy")].

Definition cy : fields := {[ "_id" := VInt 42; "name" := VString "Cy" ]}.

Definition cy_bytes : bytes :=
  match Marshal [] cy with
  | Ok b => b
  | _ => EmptyString
  end.

(** [world0] with Bo's map object at pointer 1, and the same once Bo is
    stored. *)
Definition world1 : World := {|
  heap := [ann; bo];
  dbs := dbs world0;
  idgen := 0;
|}.

Definition world2 : World := (InsertOne users (VMap (Some 1%nat)) world1).2.

End SampleFacts.

Section Witnesses.
Import Sample SampleFacts.

(** Ann, who has no [_id], is inserted and read back with the first
    identifier of the generator. *)
Lemma InsertOne_then_GetByID_witness :
  (ann !! "_id" = None /\ Unmarshal ann_bytes = Ok ann_with_id
   /\ ready users world0 = true)
  /\ exists w1,
      InsertOne users (VMap (Some 0%nat)) world0 = (Ok (VObjectID oid1), w1)
      /\ idgen w1 = 1
      /\ exists r w2,
           GetByID users (VObjectID oid1) w1 = (Ok (VMap (Some r)), w2)
           /\ heap w2 !! r = Some ann_with_id.
Proof.
  split; [repeat split; vm_compute; reflexivity|].
  apply (InsertOne_then_GetByID (L := laws) users (VMap (Some 0%nat)) world0
           0%nat [ann] ann oid1 1 ann_bytes);
    vm_compute; reflexivity.
Defined.

(** Nobody has the identifier 7 in the empty collection. *)
Lemma GetByID_not_found_witness :
  GetByID users (VInt 7) world0 = (Err (errors_New "document not found"), world0)
  /\ forall v, (GetByID users (VInt 7) world0).1 <> Ok v.
Proof.
  apply (GetByID_not_found users (VInt 7) world0 (le32 7));
    vm_compute; reflexivity.
Defined.

(** Bo brings the identifier 42, Ann gets hers from the generator. *)
Lemma InsertOne_identifier_witness :
  (exists w1,
      InsertOne users (VMap (Some 1%nat)) world1 = (Ok (VInt 42), w1)
      /\ record users w1 (le32 42) = Some bo_bytes
      /\ idgen w1 = idgen world1
      /\ heap w1 = [ann; bo])
  /\ (exists w1,
      InsertOne users (VMap (Some 0%nat)) world1 = (Ok (VObjectID oid1), w1)
      /\ String.length oid1 = 12%nat
      /\ idgen w1 = 1
      /\ heap w1 !! 0%nat = Some ann_with_id
      /\ record users w1 oid1 = Some ann_bytes).
Proof.
  split.
  - apply (proj1 (InsertOne_identifier (L := laws) users (VMap (Some 1%nat)) world1
                    1%nat [ann; bo] bo eq_refl eq_refl eq_refl)
             (VInt 42) (le32 42) bo_bytes);
      vm_compute; reflexivity.
  - apply (proj2 (InsertOne_identifier (L := laws) users (VMap (Some 0%nat)) world1
                    0%nat [ann; bo] ann eq_refl eq_refl eq_refl)
             oid1 1 ann_bytes);
      vm_compute; reflexivity.
Defined.

(** Cy, a struct with the identifier 42, replaces Bo. *)
Lemma InsertOne_overwrites_witness :
  keyspace users world2 = Some {[ le32 42 := bo_bytes ]}
  /\ exists w0 w1,
      InsertOne users cy_struct world2 = (Ok (VInt 42), w1)
      /\ dbs w0 = dbs world2
      /\ DB_Update (Database_db (Collection_db users))
           (put_tx users (le32 42) cy_bytes) w0 = (Ok tt, w1)
      /\ keyspace users w1 = Some (<[le32 42 := cy_bytes]> {[ le32 42 := bo_bytes ]})
      /\ record users w1 (le32 42) = Some cy_bytes
      /\ (forall k, k <> le32 42 -> record users w1 k = record users world2 k)
      /\ size (<[le32 42 := cy_bytes]> ({[ le32 42 := bo_bytes ]} : gmap string string))
         = size ({[ le32 42 := bo_bytes ]} : gmap string string).
Proof.
  split; [vm_compute; reflexivity|].
  apply (InsertOne_overwrites users cy_struct world2 2%nat [ann; bo; cy] cy
           (VInt 42) cy (idgen world2) (le32 42) cy_bytes
           {[ le32 42 := bo_bytes ]} bo_bytes);
    vm_compute; reflexivity.
Defined.

(** Ann's map object holds her identifier after the call. *)
Lemma InsertOne_writes_id_into_map_witness :
  (InsertOne users (VMap (Some 0%nat)) world0).1 = Ok (VObjectID oid1)
  /\ heap (InsertOne users (VMap (Some 0%nat)) world0).2 !! 0%nat = Some ann_with_id
  /\ forall v w1,
      InsertOne users (VMap (Some 0%nat)) world0 = (Ok v, w1) ->
      v = VObjectID oid1 /\ heap w1 !! 0%nat = Some (<["_id" := v]> ann).
Proof.
  split; [vm_compute; reflexivity|].
  apply (InsertOne_writes_id_into_map users 0%nat world0 ann oid1 1);
    vm_compute; reflexivity.
Defined.

(** A number is rejected without a panic, and a number is not nil. *)
Lemma InsertOne_nil_panics_witness :
  InsertOne users (VInt 3) world0 = (Err ErrInvalidType, world0)
  /\ VInt 3 <> VNil.
Proof.
  split; [reflexivity|].
  apply (proj2 (proj2 (InsertOne_nil_panics users world0)) (VInt 3)).
  vm_compute. discriminate.
Defined.

(** The collection ["orders"] is created empty in the open database. *)
Lemma Collection_by_name_witness :
  (dbs world0 !! Database_db db0 ≫= fun d => Some (opened d)) = Some true
  /\ (exists c w1,
      Database_Collection db0 "orders" world0 = (Ok c, w1)
      /\ Name c = "orders"
      /\ Collection_Database c = db0
      /\ ready c w1 = true
      /\ keyspace c w1 = Some ∅
      /\ heap w1 = heap world0 /\ idgen w1 = idgen world0
      /\ Database_Collection db0 "orders" w1 = (Ok c, w1)).
Proof.
  split; [reflexivity|].
  exact (proj2 (Collection_by_name db0 "orders" world0)
           {| opened := true; data := {[ "users" := ∅ ]} |}
           ltac:(discriminate) eq_refl eq_refl).
Defined.

End Witnesses.

(** * Further properties of the methods *)

Section Outcomes.
Context `{E : Externals}.

(** ** What every run of [InsertOne] does to the store *)

Definition succeeded {A} (o : outcome A) : bool :=
  match o with
  | Ok _ => true
  | _ => false
  end.

Lemma keyspace_dbs c w w' : dbs w' = dbs w -> keyspace c w' = keyspace c w.
Proof. intros Hd. unfold keyspace. rewrite Hd. reflexivity. Qed.

Lemma record_dbs c w w' k : dbs w' = dbs w -> record c w' k = record c w k.
Proof. intros Hd. unfold record. rewrite (keyspace_dbs c w w' Hd). reflexivity. Qed.

Lemma len_nonneg b : 0 <= len b.
Proof. unfold len. lia. Qed.

(** The transaction of [InsertOne] either commits the put, when the
    collection is ready and [Put] accepts the key and the value, or fails
    and leaves the world as it was. *)
Lemma Update_put_cases c bid bdoc w :
  if ready c w && key_ok bid && value_ok bdoc
  then DB_Update (Database_db (Collection_db c)) (put_tx c bid bdoc) w
       = (Ok tt, stored c bid bdoc w)
  else succeeded (DB_Update (Database_db (Collection_db c)) (put_tx c bid bdoc) w).1 = false
       /\ (DB_Update (Database_db (Collection_db c)) (put_tx c bid bdoc) w).2 = w.
Proof.
  destruct (ready c w) eqn:Hr; simpl.
  - destruct (key_ok bid) eqn:Hk; simpl.
    + destruct (value_ok bdoc) eqn:Hv; simpl.
      * apply Update_put_run; assumption.
      * destruct (ready_inv c w Hr) as (d & b & Hd & Ho & Hb).
        apply andb_prop in Hk as [Hk1 Hk2].
        apply Z.ltb_lt in Hk1. apply Z.leb_le in Hk2. apply Z.leb_gt in Hv.
        unfold DB_Update, put_tx, bind, Tx_Bucket, Bucket_Put.
        rewrite Hd, Ho, Hb.
        destruct (Z.eqb_spec (len bid) 0); [lia|].
        destruct (Z.ltb_spec MaxKeySize (len bid)); [lia|].
        destruct (Z.ltb_spec MaxValueSize (len bdoc)); [|lia].
        split; reflexivity.
    + destruct (ready_inv c w Hr) as (d & b & Hd & Ho & Hb).
      pose proof (len_nonneg bid) as Hn.
      unfold key_ok in Hk.
      unfold DB_Update, put_tx, bind, Tx_Bucket, Bucket_Put.
      rewrite Hd, Ho, Hb.
      destruct (Z.eqb_spec (len bid) 0); [split; reflexivity|].
      destruct (Z.ltb_spec MaxKeySize (len bid)); [split; reflexivity|].
      destruct (Z.ltb_spec 0 (len bid)); [|lia].
      destruct (Z.leb_spec (len bid) MaxKeySize); [discriminate | lia].
  - unfold ready in Hr. unfold DB_Update.
    destruct (dbs w !! Database_db (Collection_db c)) as [d|]; [|split; reflexivity].
    destruct (opened d); [|split; reflexivity].
    simpl in Hr. apply bool_decide_eq_false in Hr.
    unfold put_tx, bind, Tx_Bucket.
    destruct (data d !! Collection_name c) as [b|] eqn:Hb; [exfalso; eauto|].
    split; reflexivity.
Qed.

(** The same for [persist]: it succeeds exactly when both encodings
    succeed and the transaction commits. *)
Lemma persist_Ok_inv c m id w v w1 :
  persist c m id w = (Ok v, w1) ->
  v = id
  /\ exists bid bdoc,
      bson_MarshalValue (heap w) id = Ok bid
      /\ Marshal m w = (Ok bdoc, w)
      /\ ready c w = true /\ key_ok bid = true /\ value_ok bdoc = true
      /\ w1 = stored c bid bdoc w.
Proof.
  intros Hp. split; [exact (persist_Ok _ _ _ _ _ _ Hp)|].
  unfold persist in Hp.
  apply bind_Ok_inv in Hp as (bid & wa & Ha & Hp).
  unfold MarshalValue in Ha. injection Ha as Ha <-.
  apply bind_Ok_inv in Hp as (bdoc & wb & Hb & Hp).
  pose proof (Marshal_state m w) as Hs. rewrite Hb in Hs. simpl in Hs. subst wb.
  apply bind_Ok_inv in Hp as ([] & wc & Hc & Hp).
  unfold ret in Hp. injection Hp as _ <-.
  exists bid, bdoc.
  pose proof (Update_put_cases c bid bdoc w) as Hu.
  destruct (ready c w) eqn:Hr, (key_ok bid) eqn:Hk, (value_ok bdoc) eqn:Hv;
    simpl in Hu; try (rewrite Hc in Hu; destruct Hu; discriminate).
  rewrite Hc in Hu. injection Hu as ->. repeat split; assumption.
Qed.

Lemma persist_steps c m id w :
  persist c m id w
  = match bson_MarshalValue (heap w) id with
    | Ok bid =>
        match (Marshal m w).1 with
        | Ok bdoc =>
            match DB_Update (Database_db (Collection_db c)) (put_tx c bid bdoc) w with
            | (Ok _, w1) => (Ok id, w1)
            | (Err e, w1) => (Err e, w1)
            | (Panic, w1) => (Panic, w1)
            end
        | Err e => (Err e, w)
        | Panic => (Panic, w)
        end
    | Err e => (Err e, w)
    | Panic => (Panic, w)
    end.
Proof.
  unfold persist, bind, MarshalValue, ret.
  destruct (bson_MarshalValue (heap w) id) as [bid|e|]; try reflexivity.
  pose proof (Marshal_state m w) as Hs.
  destruct (Marshal m w) as [[bdoc|e|] wb]; simpl in Hs |- *; subst wb; reflexivity.
Qed.

Lemma persist_failed c m id w :
  succeeded (persist c m id w).1 = false -> (persist c m id w).2 = w.
Proof.
  rewrite persist_steps.
  destruct (bson_MarshalValue (heap w) id) as [bid|e|]; [|reflexivity ..].
  destruct (Marshal m w).1 as [bdoc|e|]; [|reflexivity ..].
  pose proof (Update_put_cases c bid bdoc w) as Hu.
  destruct (ready c w && key_ok bid && value_ok bdoc).
  - rewrite Hu. discriminate.
  - destruct Hu as [Hf Hw].
    destruct (DB_Update _ _ w) as [[u|e|] wc]; simpl in *; try discriminate; auto.
Qed.

(** The three phases of [InsertOne]: the document is normalised into a
    map object, the identifier is determined, the record is persisted. *)
Definition norm_phase (doc : value) : M (option loc) :=
  let* k := Kind_of (reflect_TypeOf doc) in
  if bool_decide (k ≠ reflect_Struct) && bool_decide (k ≠ reflect_Map)
  then raise ErrInvalidType
  else
    let* m := (if bool_decide (k = reflect_Struct)
               then call_structs_Map doc
               else ret None) in
    if bool_decide (k = reflect_Map)
    then match assert_map doc with
         | Some m' => ret m'
         | None => raise ErrInvalidType
         end
    else ret m.

Definition assign_id (m : option loc) : M value :=
  let* r := map_index m "_id" in
  match r with
  | Some id => ret id
  | None =>
      let* id := NewObjectID in
      let* _ := map_assign m "_id" id in
      ret id
  end.

Lemma norm_phase_steps doc w :
  norm_phase doc w
  = match doc with
    | VNil => (Panic, w)
    | VStruct _ _ => call_structs_Map doc w
    | VMap r => (Ok r, w)
    | _ => (Err ErrInvalidType, w)
    end.
Proof.
  destruct doc; try reflexivity.
  unfold norm_phase, bind, call_structs_Map, new_map, Kind_of, ret. simpl.
  destruct (structs_Map _ (heap w)) as [content h]. reflexivity.
Qed.

Lemma assign_id_steps m w :
  assign_id m w
  = match m with
    | None =>
        (Panic, {| heap := heap w; dbs := dbs w;
                   idgen := (primitive_NewObjectID (idgen w)).2 |})
    | Some l =>
        match heap w !! l with
        | None => (Panic, w)
        | Some content =>
            match content !! "_id" with
            | Some id => (Ok id, w)
            | None =>
                (Ok (VObjectID (primitive_NewObjectID (idgen w)).1),
                 prepared l
                   (<["_id" := VObjectID (primitive_NewObjectID (idgen w)).1]> content)
                   (primitive_NewObjectID (idgen w)).2 (heap w) w)
            end
        end
    end.
Proof.
  unfold assign_id, map_index, bind, map_content, ret, NewObjectID, map_assign.
  destruct m as [l|]; simpl.
  - destruct (heap w !! l) as [content|] eqn:Hl; [|reflexivity].
    destruct (content !! "_id") as [id|]; [reflexivity|].
    destruct (primitive_NewObjectID (idgen w)) as [o g]. simpl. rewrite Hl.
    reflexivity.
  - rewrite lookup_empty.
    destruct (primitive_NewObjectID (idgen w)) as [o g]. reflexivity.
Qed.

Lemma insert_normalized_phases c m w :
  insert_normalized c m w = bind (assign_id m) (persist c m) w.
Proof.
  change (insert_normalized c m)
    with (let* r := map_index m "_id" in
          let* id := match r with
                     | Some id => ret id
                     | None =>
                         let* id := NewObjectID in
                         let* _ := map_assign m "_id" id in
                         ret id
                     end in
          persist c m id).
  unfold assign_id, bind.
  destruct (map_index m "_id" w) as [[[id|]|e|] wa]; try reflexivity.
Qed.

Lemma InsertOne_phases c doc w :
  InsertOne c doc w = bind (norm_phase doc) (insert_normalized c) w.
Proof.
  unfold bind. rewrite norm_phase_steps.
  destruct doc; reflexivity.
Qed.

Lemma norm_phase_dbs doc w : dbs (norm_phase doc w).2 = dbs w.
Proof.
  rewrite norm_phase_steps. destruct doc; try reflexivity.
  unfold call_structs_Map. destruct (structs_Map _ (heap w)). reflexivity.
Qed.

Lemma assign_id_dbs m w : dbs (assign_id m w).2 = dbs w.
Proof.
  rewrite assign_id_steps. destruct m as [l|]; [|reflexivity].
  destruct (heap w !! l) as [content|]; [|reflexivity].
  destruct (content !! "_id"); reflexivity.
Qed.

(** After the identifier is determined, the map object holds it. *)
Lemma assign_id_Ok m w id w0 :
  assign_id m w = (Ok id, w0) ->
  exists l content',
    m = Some l /\ heap w0 !! l = Some content' /\ content' !! "_id" = Some id.
Proof.
  rewrite assign_id_steps. destruct m as [l|]; [|discriminate].
  destruct (heap w !! l) as [content|] eqn:Hl; [|discriminate].
  destruct (content !! "_id") as [v|] eqn:Hv; intros Heq; injection Heq as <- <-.
  - exists l, content. auto.
  - exists l. eexists. split; [reflexivity|]. split.
    + simpl. apply list_lookup_insert_eq. eapply lookup_lt_Some, Hl.
    + apply lookup_insert_eq.
Qed.

(** A successful [InsertOne], taken apart. *)
Lemma InsertOne_Ok_inv c doc w id w1 :
  InsertOne c doc w = (Ok id, w1) ->
  exists l content' w0 bid bdoc,
    dbs w0 = dbs w
    /\ heap w0 !! l = Some content' /\ content' !! "_id" = Some id
    /\ bson_MarshalValue (heap w0) id = Ok bid
    /\ bson_Marshal (heap w0) content' = Ok bdoc
    /\ ready c w = true /\ key_ok bid = true /\ value_ok bdoc = true
    /\ w1 = stored c bid bdoc w0.
Proof.
  rewrite InsertOne_phases. intros (m & wa & Hn & Hi)%bind_Ok_inv.
  rewrite insert_normalized_phases in Hi.
  apply bind_Ok_inv in Hi as (id' & w0 & Ha & Hp).
  apply persist_Ok_inv in Hp as (-> & bid & bdoc & Hbid & Hm & Hr & Hk & Hv & ->).
  destruct (assign_id_Ok m wa id' w0 Ha) as (l & content' & -> & Hl & Hid).
  assert (Hd : dbs w0 = dbs w).
  { pose proof (assign_id_dbs (Some l) wa) as H1. rewrite Ha in H1.
    pose proof (norm_phase_dbs doc w) as H2. rewrite Hn in H2.
    simpl in H1, H2. congruence. }
  exists l, content', w0, bid, bdoc. repeat split; try assumption.
  - unfold Marshal, bind, map_content in Hm. rewrite Hl in Hm.
    injection Hm as Hm. exact Hm.
  - rewrite (ready_dbs c w0 w (eq_sym Hd)). exact Hr.
Qed.

Lemma bind_failed_dbs {A B} (p : M A) (k : A -> M B) w :
  (forall w, dbs (p w).2 = dbs w) ->
  (forall a w, succeeded (k a w).1 = false -> dbs (k a w).2 = dbs w) ->
  succeeded (bind p k w).1 = false ->
  dbs (bind p k w).2 = dbs w.
Proof.
  intros Hp Hk. unfold bind. specialize (Hp w).
  destruct (p w) as [[a|e|] wa]; simpl in Hp |- *; intros Hf; try exact Hp.
  rewrite (Hk a wa Hf). exact Hp.
Qed.

Lemma InsertOne_failed_dbs c doc w :
  succeeded (InsertOne c doc w).1 = false ->
  dbs (InsertOne c doc w).2 = dbs w.
Proof.
  rewrite InsertOne_phases.
  apply bind_failed_dbs; [apply norm_phase_dbs|]. clear w. intros m w.
  rewrite insert_normalized_phases.
  apply bind_failed_dbs; [apply assign_id_dbs|]. clear w. intros id w Hf.
  rewrite (persist_failed c m id w Hf). reflexivity.
Qed.

Lemma stored_keyspace_other c c' bid bdoc w :
  Database_db (Collection_db c') <> Database_db (Collection_db c)
  \/ Collection_name c' <> Collection_name c ->
  keyspace c' (stored c bid bdoc w) = keyspace c' w.
Proof.
  intros Hne. unfold keyspace, stored.
  destruct (dbs w !! Database_db (Collection_db c)) as [d|] eqn:Hd; [|reflexivity].
  destruct (data d !! Collection_name c) as [b|] eqn:Hb; [|reflexivity].
  simpl.
  destruct (decide (Database_db (Collection_db c') = Database_db (Collection_db c)))
    as [Heq|Hdb].
  - rewrite Heq, Hd.
    rewrite list_lookup_insert_eq by (eapply lookup_lt_Some; exact Hd).
    simpl. apply lookup_insert_ne. destruct Hne as [H|H]; congruence.
  - rewrite list_lookup_insert_ne by congruence. reflexivity.
Qed.

(** X1. When [InsertOne] returns an identifier, the collection was ready,
    and its keyspace afterwards is the one before with one record put under
    the encoding of that identifier: the other records are as they were,
    and the collection is still ready. *)
Theorem InsertOne_success_puts_one_record c doc w id w1 :
  InsertOne c doc w = (Ok id, w1) ->
  exists bid bdoc b,
    ready c w = true
    /\ keyspace c w = Some b
    /\ bson_MarshalValue (heap w1) id = Ok bid
    /\ keyspace c w1 = Some (<[bid := bdoc]> b)
    /\ (forall k, k <> bid -> record c w1 k = record c w k)
    /\ ready c w1 = true.
Proof.
  intros (l & content' & w0 & bid & bdoc & Hd & _ & _ & Hbid & _ & Hr & _ & _ & ->)
    %InsertOne_Ok_inv.
  destruct (ready_keyspace c w Hr) as [b Hb].
  assert (Hr0 : ready c w0 = true) by (rewrite (ready_dbs c w w0 Hd); exact Hr).
  exists bid, bdoc, b. split; [exact Hr|]. split; [exact Hb|].
  split; [rewrite stored_heap; exact Hbid|].
  split; [apply stored_keyspace; rewrite (keyspace_dbs c w w0 Hd); exact Hb|].
  split; [|apply stored_ready, Hr0].
  intros k Hk. rewrite stored_record_ne by exact Hk. apply record_dbs, Hd.
Qed.

(** X2. When [InsertOne] does not return an identifier (it returns an error
    or panics), no database is changed: every record of every collection is
    as before. *)
Theorem InsertOne_failure_writes_nothing c doc w :
  succeeded (InsertOne c doc w).1 = false ->
  dbs (InsertOne c doc w).2 = dbs w
  /\ forall c' k, record c' (InsertOne c doc w).2 k = record c' w k.
Proof.
  intros Hf. pose proof (InsertOne_failed_dbs c doc w Hf) as Hd.
  split; [exact Hd|]. intros c' k. apply record_dbs, Hd.
Qed.

(** X3. [InsertOne] on a collection never touches the keyspace of another
    collection, of the same database or of another one, whatever its
    outcome. *)
Theorem InsertOne_other_collections c c' doc w :
  Database_db (Collection_db c') <> Database_db (Collection_db c)
  \/ Collection_name c' <> Collection_name c ->
  keyspace c' (InsertOne c doc w).2 = keyspace c' w.
Proof.
  intros Hne.
  destruct (InsertOne c doc w) as [[id|e|] w1] eqn:Hrun; simpl.
  - apply InsertOne_Ok_inv in Hrun
      as (l & content' & w0 & bid & bdoc & Hd & _ & _ & _ & _ & _ & _ & _ & ->).
    rewrite stored_keyspace_other by exact Hne. apply keyspace_dbs, Hd.
  - pose proof (InsertOne_failed_dbs c doc w) as Hd. rewrite Hrun in Hd.
    apply keyspace_dbs, Hd. reflexivity.
  - pose proof (InsertOne_failed_dbs c doc w) as Hd. rewrite Hrun in Hd.
    apply keyspace_dbs, Hd. reflexivity.
Qed.


(** X5. After a successful [InsertOne], [GetByID] of the returned
    identifier finds the record: its outcome is that of decoding the stored
    bytes, and when they decode it returns a map object with the decoded
    fields. *)
Theorem InsertOne_then_GetByID_decodes c doc w id w1 :
  InsertOne c doc w = (Ok id, w1) ->
  exists bid bdoc,
    record c w1 bid = Some bdoc
    /\ GetByID c id w1 = (let* m := Unmarshal bdoc in ret (VMap m)) w1
    /\ forall content,
         bson_Unmarshal bdoc = Ok content ->
         exists r w2,
           GetByID c id w1 = (Ok (VMap (Some r)), w2)
           /\ heap w2 !! r = Some content.
Proof.
  intros (l & content' & w0 & bid & bdoc & Hd & _ & _ & Hbid & _ & Hr & _ & _ & ->)
    %InsertOne_Ok_inv.
  assert (Hr0 : ready c w0 = true) by (rewrite (ready_dbs c w w0 Hd); exact Hr).
  set (w1 := stored c bid bdoc w0).
  assert (Hrec : record c w1 bid = Some bdoc) by (apply stored_record, Hr0).
  assert (Hget : GetByID c id w1 = (let* m := Unmarshal bdoc in ret (VMap m)) w1).
  { rewrite GetByID_steps.
    rewrite (bind_Ok _ _ w1 bid w1)
      by (unfold MarshalValue, w1; rewrite stored_heap, Hbid; reflexivity).
    rewrite (bind_Ok _ _ w1 bdoc w1); [reflexivity|].
    rewrite (View_get_run c bid w1) by (apply stored_ready, Hr0).
    rewrite Hrec. reflexivity. }
  exists bid, bdoc. split; [exact Hrec|]. split; [exact Hget|].
  intros content Hdec. rewrite Hget.
  unfold bind, Unmarshal, lift, new_map, ret. rewrite Hdec.
  eexists _, _. split; [reflexivity|].
  simpl. apply list_lookup_middle. reflexivity.
Qed.

(** X6. When the keyspace has no record under the encoding of the returned
    identifier, a successful [InsertOne] adds one record: the keyspace has
    one record more and keeps all those it had. *)
Theorem InsertOne_new_key_adds_record c doc w id w1 bid b :
  InsertOne c doc w = (Ok id, w1) ->
  bson_MarshalValue (heap w1) id = Ok bid ->
  keyspace c w = Some b ->
  b !! bid = None ->
  exists b1,
    keyspace c w1 = Some b1
    /\ size b1 = S (size b)
    /\ forall k v, b !! k = Some v -> b1 !! k = Some v.
Proof.
  intros (l & content' & w0 & bid' & bdoc & Hd & _ & _ & Hbid & _ & Hr & _ & _ & ->)
    %InsertOne_Ok_inv Hbid' Hb Hnone.
  rewrite stored_heap in Hbid'. assert (bid' = bid) as -> by congruence.
  exists (<[bid := bdoc]> b).
  split; [apply stored_keyspace; rewrite (keyspace_dbs c w w0 Hd); exact Hb|].
  split; [apply map_size_insert_None, Hnone|].
  intros k v Hk. rewrite lookup_insert_ne by congruence. exact Hk.
Qed.

(** ** The map object of the caller *)

Lemma DB_Update_idgen {A} p (fn : ST Tx A) w : idgen (DB_Update p fn w).2 = idgen w.
Proof.
  unfold DB_Update. destruct (dbs w !! p) as [d|]; [|reflexivity].
  destruct (opened d); [|reflexivity].
  destruct (fn (data d)) as [[a|e|] tx]; reflexivity.
Qed.

Lemma persist_idgen c m id w : idgen (persist c m id w).2 = idgen w.
Proof.
  rewrite persist_steps.
  destruct (bson_MarshalValue (heap w) id) as [bid|e|]; [|reflexivity ..].
  destruct (Marshal m w).1 as [bdoc|e|]; [|reflexivity ..].
  pose proof (DB_Update_idgen (Database_db (Collection_db c)) (put_tx c bid bdoc) w) as Hu.
  destruct (DB_Update _ _ w) as [[u|e|] wc]; exact Hu.
Qed.

(** X7. [InsertOne] of the nil [map[string]interface{}] panics: the lookup
    of [_id] in the nil map finds nothing, an identifier is drawn from the
    generator, and the assignment into the nil map panics.  No database and
    no map object is changed; the generator has moved on. *)
Theorem InsertOne_nil_map_panics c w :
  (InsertOne c (VMap None) w).1 = Panic
  /\ dbs (InsertOne c (VMap None) w).2 = dbs w
  /\ heap (InsertOne c (VMap None) w).2 = heap w
  /\ idgen (InsertOne c (VMap None) w).2 = (primitive_NewObjectID (idgen w)).2.
Proof.
  rewrite InsertOne_VMap, insert_normalized_phases.
  unfold bind. rewrite assign_id_steps. repeat split.
Qed.

(** X8. When the map object given to [InsertOne] has an [_id], no
    identifier is drawn and no map object is written, whatever the
    outcome; the identifier returned on success is the one of the map. *)
Theorem InsertOne_keeps_map_with_id c l w (content : gmap string value) (id : value) :
  heap w !! l = Some content ->
  content !! "_id" = Some id ->
  heap (InsertOne c (VMap (Some l)) w).2 = heap w
  /\ idgen (InsertOne c (VMap (Some l)) w).2 = idgen w
  /\ forall v w1, InsertOne c (VMap (Some l)) w = (Ok v, w1) -> v = id.
Proof.
  intros Hl Hid.
  assert (Hrun : InsertOne c (VMap (Some l)) w = persist c (Some l) id w).
  { rewrite InsertOne_VMap, insert_normalized_phases.
    apply bind_Ok. rewrite assign_id_steps, Hl, Hid. reflexivity. }
  rewrite Hrun. split; [apply persist_heap|]. split; [apply persist_idgen|].
  intros v w1 Hp. exact (persist_Ok _ _ _ _ _ _ Hp).
Qed.

(** ** [GetByID] *)

Lemma DB_View_state {A} p (fn : ST Tx A) w : (DB_View p fn w).2 = w.
Proof.
  unfold DB_View. destruct (dbs w !! p) as [d|]; [|reflexivity].
  destruct (opened d); reflexivity.
Qed.

Lemma GetByID_cases c id w :
  GetByID c id w
  = match bson_MarshalValue (heap w) id with
    | Ok bid =>
        match (DB_View (Database_db (Collection_db c)) (get_tx c bid) w).1 with
        | Ok bdoc =>
            match bson_Unmarshal bdoc with
            | Ok content =>
                (Ok (VMap (Some (length (heap w)))),
                 {| heap := heap w ++ [content]; dbs := dbs w; idgen := idgen w |})
            | Err e => (Err e, w)
            | Panic => (Panic, w)
            end
        | Err e => (Err e, w)
        | Panic => (Panic, w)
        end
    | Err e => (Err e, w)
    | Panic => (Panic, w)
    end.
Proof.
  rewrite GetByID_steps. unfold bind at 1, MarshalValue.
  destruct (bson_MarshalValue (heap w) id) as [bid|e|]; try reflexivity.
  unfold bind at 1.
  pose proof (DB_View_state (Database_db (Collection_db c)) (get_tx c bid) w) as Hs.
  destruct (DB_View _ _ w) as [[bdoc|e|] wa]; simpl in Hs |- *; subst wa;
    try reflexivity.
  unfold bind, Unmarshal, lift, new_map, ret.
  destruct (bson_Unmarshal bdoc) as [content|e|]; reflexivity.
Qed.

(** X9. [GetByID] only reads: the databases and the generator are as
    before, and every map object that existed is unchanged (the decoded
    document goes into a new one). *)
Theorem GetByID_reads_only c id w :
  dbs (GetByID c id w).2 = dbs w
  /\ idgen (GetByID c id w).2 = idgen w
  /\ forall l m, heap w !! l = Some m -> heap (GetByID c id w).2 !! l = Some m.
Proof.
  rewrite GetByID_cases.
  destruct (bson_MarshalValue (heap w) id) as [bid|e|]; [|auto ..].
  destruct (DB_View _ _ w).1 as [bdoc|e|]; [|auto ..].
  destruct (bson_Unmarshal bdoc) as [content|e|]; simpl; [|auto ..].
  split; [reflexivity|]. split; [reflexivity|]. intros l m Hl.
  rewrite lookup_app_l by (eapply lookup_lt_Some, Hl). exact Hl.
Qed.

(** X10. When the record is there and decodes, [GetByID] returns a map
    object that did not exist before and that holds the decoded fields. *)
Theorem GetByID_returns_new_map c id w bid bdoc content :
  bson_MarshalValue (heap w) id = Ok bid ->
  ready c w = true ->
  record c w bid = Some bdoc ->
  bson_Unmarshal bdoc = Ok content ->
  exists r w1,
    GetByID c id w = (Ok (VMap (Some r)), w1)
    /\ heap w !! r = None
    /\ heap w1 !! r = Some content.
Proof.
  intros Hbid Hr Hrec Hdec.
  eexists _, _. split; [apply (GetByID_found c id w bid bdoc content); assumption|].
  split.
  - apply lookup_ge_None. lia.
  - simpl. apply list_lookup_middle. reflexivity.
Qed.

(** X11. The errors of the codec come back from [GetByID] as they are, and
    nothing is changed: an identifier that cannot be encoded, and a record
    that cannot be decoded. *)
Theorem GetByID_codec_errors c id w :
  (forall e, bson_MarshalValue (heap w) id = Err e -> GetByID c id w = (Err e, w))
  /\ (forall bid bdoc e,
        bson_MarshalValue (heap w) id = Ok bid ->
        ready c w = true ->
        record c w bid = Some bdoc ->
        bson_Unmarshal bdoc = Err e ->
        GetByID c id w = (Err e, w)).
Proof.
  split.
  - intros e He. rewrite GetByID_steps. apply bind_Err.
    unfold MarshalValue. rewrite He. reflexivity.
  - intros bid bdoc e Hbid Hr Hrec Hdec. rewrite GetByID_steps.
    rewrite (bind_Ok _ _ w bid w) by (unfold MarshalValue; rewrite Hbid; reflexivity).
    rewrite (bind_Ok _ _ w bdoc w)
      by (rewrite (View_get_run c bid w Hr), Hrec; reflexivity).
    apply bind_Err. unfold Unmarshal, bind, lift. rewrite Hdec. reflexivity.
Qed.

(** X12. A document that brings its [_id] is read back as it is: when its
    fields are encoded into bytes that the engine accepts and that decode
    to the same fields, [InsertOne] returns that [_id], and [GetByID] of it
    returns a new map object with exactly the fields of the document. *)
Theorem InsertOne_explicit_id_round_trip c doc w l h0 content id bid bdoc :
  normalize doc (heap w) = Some (l, h0) ->
  h0 !! l = Some content ->
  content !! "_id" = Some id ->
  bson_MarshalValue h0 id = Ok bid -> key_ok bid = true ->
  bson_Marshal h0 content = Ok bdoc -> value_ok bdoc = true ->
  bson_Unmarshal bdoc = Ok content ->
  ready c w = true ->
  exists w1 r w2,
    InsertOne c doc w = (Ok id, w1)
    /\ GetByID c id w1 = (Ok (VMap (Some r)), w2)
    /\ heap w1 !! r = None
    /\ heap w2 !! r = Some content.
Proof.
  intros Hn Hl Hid Hbid Hk Hbdoc Hv Hdec Hr.
  assert (Hh : <[l := content]> h0 = h0) by (apply list_insert_id, Hl).
  set (w1 := stored c bid bdoc (prepared l content (idgen w) h0 w)).
  assert (Hh1 : heap w1 = h0) by (unfold w1; rewrite stored_heap; exact Hh).
  exists w1, (length (heap w1)). eexists. split; [|split; [|split]].
  - apply InsertOne_run with (content := content); try assumption.
    + apply determine_id_given, Hid.
    + rewrite Hh. exact Hbid.
    + rewrite Hh. exact Hbdoc.
  - apply (GetByID_found c id w1 bid bdoc content).
    + rewrite Hh1. exact Hbid.
    + apply stored_ready. exact Hr.
    + apply stored_record. exact Hr.
    + exact Hdec.
  - apply lookup_ge_None. lia.
  - simpl. apply list_lookup_middle. reflexivity.
Qed.

(** ** [Drop] *)

(** The world after a committed [DeleteBucket]. *)
Definition dropped (c : Collection) (w : World) : World :=
  match dbs w !! Database_db (Collection_db c) with
  | Some d =>
      {| heap := heap w;
         dbs := <[Database_db (Collection_db c) :=
                    {| opened := true; data := delete (Collection_name c) (data d) |}]>
                  (dbs w);
         idgen := idgen w |}
  | None => w
  end.

Lemma Drop_run c w : ready c w = true -> Drop c w = (Ok tt, dropped c w).
Proof.
  intros (d & b & Hd & Ho & Hb)%ready_inv.
  unfold Drop, DB_Update, Tx_DeleteBucket, dropped. rewrite Hd, Ho, Hb.
  reflexivity.
Qed.

Lemma Drop_missing c w d :
  dbs w !! Database_db (Collection_db c) = Some d ->
  opened d = true ->
  data d !! Collection_name c = None ->
  Drop c w = (Err ErrBucketNotFound, w).
Proof.
  intros Hd Ho Hb. unfold Drop, DB_Update, Tx_DeleteBucket.
  rewrite Hd, Ho, Hb. reflexivity.
Qed.

Lemma dropped_lookup c w d :
  dbs w !! Database_db (Collection_db c) = Some d ->
  dbs (dropped c w) !! Database_db (Collection_db c)
  = Some {| opened := true; data := delete (Collection_name c) (data d) |}.
Proof.
  intros Hd. unfold dropped. rewrite Hd. simpl.
  apply list_lookup_insert_eq. eapply lookup_lt_Some, Hd.
Qed.

(** X13. [Drop] on a collection that is ready removes its keyspace with
    all its records and leaves the keyspaces of the other collections, the
    map objects and the generator as they were; a second [Drop] fails with
    the engine's bucket-not-found error. *)
Theorem Drop_removes_keyspace c w :
  ready c w = true ->
  exists w1,
    Drop c w = (Ok tt, w1)
    /\ keyspace c w1 = None
    /\ (forall c',
          Database_db (Collection_db c') <> Database_db (Collection_db c)
          \/ Collection_name c' <> Collection_name c ->
          keyspace c' w1 = keyspace c' w)
    /\ heap w1 = heap w /\ idgen w1 = idgen w
    /\ Drop c w1 = (Err ErrBucketNotFound, w1).
Proof.
  intros Hr. destruct (ready_inv c w Hr) as (d & b & Hd & Ho & Hb).
  pose proof (dropped_lookup c w d Hd) as Hd1.
  exists (dropped c w). split; [apply Drop_run, Hr|].
  split; [|split; [|split; [|split]]].
  - unfold keyspace. rewrite Hd1. simpl. apply lookup_delete_eq.
  - intros c' Hne. unfold keyspace.
    destruct (decide (Database_db (Collection_db c') = Database_db (Collection_db c)))
      as [Heq|Hdb].
    + rewrite Heq, Hd1, Hd. simpl. apply lookup_delete_ne.
      destruct Hne as [H|H]; congruence.
    + unfold dropped. rewrite Hd. simpl.
      rewrite list_lookup_insert_ne by congruence. reflexivity.
  - unfold dropped. rewrite Hd. reflexivity.
  - unfold dropped. rewrite Hd. reflexivity.
  - eapply Drop_missing; [exact Hd1 | reflexivity | apply lookup_delete_eq].
Qed.

(** X14. On a handle whose keyspace does not exist in the open database
    (it was dropped), [tx.Bucket] returns nil and the methods dereference
    it: [GetByID] of an identifier that can be encoded panics, and
    [InsertOne] never returns an identifier and writes nothing. *)
Theorem methods_on_missing_keyspace c w d :
  dbs w !! Database_db (Collection_db c) = Some d ->
  opened d = true ->
  data d !! Collection_name c = None ->
  (forall id bid,
      bson_MarshalValue (heap w) id = Ok bid -> GetByID c id w = (Panic, w))
  /\ (forall doc,
        succeeded (InsertOne c doc w).1 = false
        /\ dbs (InsertOne c doc w).2 = dbs w).
Proof.
  intros Hd Ho Hb. split.
  - intros id bid Hbid. rewrite GetByID_cases, Hbid.
    unfold DB_View, get_tx, bind, Tx_Bucket. rewrite Hd, Ho, Hb. reflexivity.
  - intros doc.
    assert (Hf : succeeded (InsertOne c doc w).1 = false).
    { destruct (InsertOne c doc w) as [[id|e|] w1] eqn:Hrun; try reflexivity.
      apply InsertOne_Ok_inv in Hrun
        as (_ & _ & _ & _ & _ & _ & _ & _ & _ & _ & Hr & _).
      unfold ready in Hr. rewrite Hd, Ho, Hb in Hr. discriminate. }
    split; [exact Hf | apply InsertOne_failed_dbs, Hf].
Qed.

(** X15. [Drop] and then [Collection] with the same name give the same
    handle on an empty keyspace: every identifier that can be encoded is
    not found. *)
Theorem Drop_then_Collection_is_empty c w :
  ready c w = true ->
  Collection_name c <> "" ->
  exists w1 w2,
    Drop c w = (Ok tt, w1)
    /\ Database_Collection (Collection_db c) (Collection_name c) w1 = (Ok c, w2)
    /\ keyspace c w2 = Some ∅
    /\ forall id bid,
         bson_MarshalValue (heap w2) id = Ok bid ->
         GetByID c id w2 = (Err (errors_New "document not found"), w2).
Proof.
  intros Hr Hne. destruct (ready_inv c w Hr) as (d & b & Hd & Ho & Hb).
  pose proof (dropped_lookup c w d Hd) as Hd1.
  set (d1 := {| opened := true; data := delete (Collection_name c) (data d) |}) in *.
  set (w2 := with_bucket (Collection_db c) (Collection_name c) (dropped c w)).
  assert (Hd2 : dbs w2 !! Database_db (Collection_db c)
                = Some {| opened := true;
                          data := ensure_bucket (Collection_name c) (data d1) |}).
  { unfold w2, with_bucket. rewrite Hd1. simpl.
    apply list_lookup_insert_eq. eapply lookup_lt_Some, Hd1. }
  assert (Hk : keyspace c w2 = Some ∅).
  { unfold keyspace. rewrite Hd2. simpl. rewrite ensure_bucket_lookup.
    unfold d1. simpl. rewrite lookup_delete_eq. reflexivity. }
  exists (dropped c w), w2. split; [apply Drop_run, Hr|].
  split; [|split; [exact Hk|]].
  - rewrite (Database_Collection_run _ _ _ d1 Hne Hd1 eq_refl).
    destruct c; reflexivity.
  - intros id bid Hbid. apply (GetByID_absent c id w2 bid Hbid).
    + unfold ready. rewrite Hd2. simpl. apply bool_decide_eq_true.
      rewrite ensure_bucket_lookup. eauto.
    + unfold record. rewrite Hk. simpl. apply lookup_empty.
Qed.

(** ** [Close] *)

(** X16. [Close] marks the database closed and keeps its data, the map
    objects and the generator; a second [Close] is accepted and changes
    nothing. *)
Theorem Close_keeps_data db w d :
  dbs w !! Database_db db = Some d ->
  exists w1,
    Close db w = (Ok tt, w1)
    /\ dbs w1 !! Database_db db = Some {| opened := false; data := data d |}
    /\ (forall c, keyspace c w1 = keyspace c w)
    /\ heap w1 = heap w /\ idgen w1 = idgen w
    /\ Close db w1 = (Ok tt, w1).
Proof.
  intros Hd.
  assert (Hlt : (Database_db db < length (dbs w))%nat) by (eapply lookup_lt_Some, Hd).
  set (d1 := {| opened := false; data := data d |}).
  set (w1 := {| heap := heap w; dbs := <[Database_db db := d1]> (dbs w);
                idgen := idgen w |}).
  assert (Hd1 : dbs w1 !! Database_db db = Some d1)
    by (apply list_lookup_insert_eq, Hlt).
  exists w1. split; [unfold Close, DB_Close; rewrite Hd; reflexivity|].
  split; [exact Hd1|]. split; [|split; [reflexivity|split; [reflexivity|]]].
  - intros c. unfold keyspace.
    destruct (decide (Database_db (Collection_db c) = Database_db db)) as [Heq|Hdb].
    + rewrite Heq, Hd1, Hd. reflexivity.
    + simpl. rewrite list_lookup_insert_ne by congruence. reflexivity.
  - unfold Close, DB_Close. rewrite Hd1. simpl.
    rewrite list_insert_insert_eq. reflexivity.
Qed.

(** X17. On a closed database every method that opens a transaction fails
    with the engine's database-not-open error and changes nothing:
    [Collection] with a name that is not empty, [Drop], and [GetByID] of an
    identifier that can be encoded; [InsertOne] never returns an identifier
    and writes nothing. *)
Theorem methods_on_closed_database c w d :
  dbs w !! Database_db (Collection_db c) = Some d ->
  opened d = false ->
  (forall name,
      name <> "" ->
      Database_Collection (Collection_db c) name w = (Err ErrDatabaseNotOpen, w))
  /\ Drop c w = (Err ErrDatabaseNotOpen, w)
  /\ (forall id bid,
        bson_MarshalValue (heap w) id = Ok bid ->
        GetByID c id w = (Err ErrDatabaseNotOpen, w))
  /\ (forall doc,
        succeeded (InsertOne c doc w).1 = false
        /\ dbs (InsertOne c doc w).2 = dbs w).
Proof.
  intros Hd Ho. split; [|split; [|split]].
  - intros name Hne. unfold Database_Collection.
    destruct (decide (name = "")) as [?|_]; [contradiction|].
    apply bind_Err. unfold DB_Update. rewrite Hd, Ho. reflexivity.
  - unfold Drop, DB_Update. rewrite Hd, Ho. reflexivity.
  - intros id bid Hbid. rewrite GetByID_cases, Hbid.
    unfold DB_View. rewrite Hd, Ho. reflexivity.
  - intros doc.
    assert (Hf : succeeded (InsertOne c doc w).1 = false).
    { destruct (InsertOne c doc w) as [[id|e|] w1] eqn:Hrun; try reflexivity.
      apply InsertOne_Ok_inv in Hrun
        as (_ & _ & _ & _ & _ & _ & _ & _ & _ & _ & Hr & _).
      unfold ready in Hr. rewrite Hd, Ho in Hr. discriminate. }
    split; [exact Hf | apply InsertOne_failed_dbs, Hf].
Qed.

(** X18. [InsertOne] writes the generated identifier into the map of the
    caller before it opens the transaction: on a closed database a map
    without [_id] that can be encoded gets its [_id], the generator moves
    on, and the call returns the engine's database-not-open error with
    nothing stored. *)
Theorem InsertOne_closed_database_still_assigns c l w content o g bid bdoc d :
  heap w !! l = Some content ->
  content !! "_id" = None ->
  primitive_NewObjectID (idgen w) = (o, g) ->
  bson_MarshalValue (<[l := <["_id" := VObjectID o]> content]> (heap w))
                    (VObjectID o) = Ok bid ->
  bson_Marshal (<[l := <["_id" := VObjectID o]> content]> (heap w))
               (<["_id" := VObjectID o]> content) = Ok bdoc ->
  dbs w !! Database_db (Collection_db c) = Some d ->
  opened d = false ->
  InsertOne c (VMap (Some l)) w
  = (Err ErrDatabaseNotOpen,
     {| heap := <[l := <["_id" := VObjectID o]> content]> (heap w);
        dbs := dbs w; idgen := g |}).
Proof.
  intros Hl Hnone Hgen Hbid Hbdoc Hd Ho.
  rewrite InsertOne_VMap, (insert_normalized_fresh c l w content o g Hl Hnone Hgen).
  rewrite persist_steps. unfold prepared. simpl. rewrite Hbid.
  unfold Marshal, bind, map_content. simpl.
  rewrite list_lookup_insert_eq by (eapply lookup_lt_Some, Hl). simpl.
  rewrite Hbdoc. unfold DB_Update. simpl. rewrite Hd, Ho. reflexivity.
Qed.

(** ** [Collection] and [CollectionMust] *)

Lemma Database_Collection_cases db name w :
  Database_Collection db name w
  = if decide (name = "") then (Err ErrEmptyBucketName, w)
    else match dbs w !! Database_db db with
         | None => (Panic, w)
         | Some d =>
             if opened d
             then (Ok {| Collection_db := db; Collection_name := name |},
                   with_bucket db name w)
             else (Err ErrDatabaseNotOpen, w)
         end.
Proof.
  destruct (decide (name = "")) as [->|Hne]; [reflexivity|].
  destruct (dbs w !! Database_db db) as [d|] eqn:Hd.
  - destruct (opened d) eqn:Ho.
    + apply Database_Collection_run with (d := d); assumption.
    + unfold Database_Collection.
      destruct (decide (name = "")) as [?|_]; [contradiction|].
      apply bind_Err. unfold DB_Update. rewrite Hd, Ho. reflexivity.
  - unfold Database_Collection.
    destruct (decide (name = "")) as [?|_]; [contradiction|].
    apply bind_Panic. unfold DB_Update. rewrite Hd. reflexivity.
Qed.

Lemma with_bucket_keyspace db name w c' b :
  keyspace c' w = Some b -> keyspace c' (with_bucket db name w) = Some b.
Proof.
  unfold keyspace, with_bucket. intros Hk.
  destruct (dbs w !! Database_db db) as [d|] eqn:Hd; [|exact Hk].
  simpl.
  destruct (decide (Database_db (Collection_db c') = Database_db db)) as [Heq|Hdb].
  - rewrite Heq in Hk |- *. rewrite Hd in Hk. simpl in Hk.
    rewrite list_lookup_insert_eq by (eapply lookup_lt_Some, Hd). simpl.
    unfold ensure_bucket.
    destruct (data d !! name) eqn:Hn; [exact Hk|].
    rewrite lookup_insert_ne by congruence. exact Hk.
  - rewrite list_lookup_insert_ne by congruence. exact Hk.
Qed.

(** X19. [Collection] never loses data: whatever the name and whatever the
    outcome, every keyspace that existed has the records it had, and the
    map objects and the generator are untouched. *)
Theorem Collection_keeps_existing_keyspaces db name w :
  heap (Database_Collection db name w).2 = heap w
  /\ idgen (Database_Collection db name w).2 = idgen w
  /\ forall c' b,
      keyspace c' w = Some b ->
      keyspace c' (Database_Collection db name w).2 = Some b.
Proof.
  rewrite Database_Collection_cases.
  destruct (decide (name = "")); [auto|].
  destruct (dbs w !! Database_db db) as [d|] eqn:Hd; [|auto].
  destruct (opened d); [|auto]. simpl.
  split; [unfold with_bucket; rewrite Hd; reflexivity|].
  split; [unfold with_bucket; rewrite Hd; reflexivity|].
  intros c' b. apply with_bucket_keyspace.
Qed.

(** X20. [CollectionMust] never returns an error: it panics, and changes
    nothing, on the empty name and on a closed database; on an open
    database and a name that is not empty it returns the handle that
    [Collection] returns, with the keyspace in place. *)
Theorem CollectionMust_panics_on_error db name w :
  (forall e, (CollectionMust db name w).1 <> Err e)
  /\ CollectionMust db "" w = (Panic, w)
  /\ (forall d,
        dbs w !! Database_db db = Some d -> opened d = false ->
        CollectionMust db name w = (Panic, w))
  /\ (forall d,
        name <> "" ->
        dbs w !! Database_db db = Some d -> opened d = true ->
        exists c w1,
          CollectionMust db name w = (Ok c, w1)
          /\ Database_Collection db name w = (Ok c, w1)
          /\ Name c = name /\ Collection_Database c = db
          /\ is_Some (keyspace c w1)).
Proof.
  unfold CollectionMust. rewrite Database_Collection_cases.
  split; [|split; [|split]].
  - intros e. destruct (decide (name = "")); [discriminate|].
    destruct (dbs w !! Database_db db) as [d|]; [|discriminate].
    destruct (opened d); discriminate.
  - reflexivity.
  - intros d Hd Ho. rewrite Hd, Ho.
    destruct (decide (name = "")); reflexivity.
  - intros d Hne Hd Ho. rewrite Hd, Ho.
    destruct (decide (name = "")) as [?|_]; [contradiction|].
    eexists _, _. split; [reflexivity|]. split; [reflexivity|].
    split; [reflexivity|]. split; [reflexivity|].
    unfold keyspace, with_bucket. rewrite Hd. simpl.
    rewrite list_lookup_insert_eq by (eapply lookup_lt_Some, Hd). simpl.
    rewrite ensure_bucket_lookup. eauto.
Qed.

End Outcomes.

(** * The further properties on the small instance *)

Module SampleRuns.
Import Sample SampleFacts.

(** The collection ["orders"] of the same database; it does not exist in
    [world0]. *)
Definition orders : Collection := {| Collection_db := db0; Collection_name := "orders" |}.

(** The database object of [world0], and [world0] with the database
    closed. *)
Definition d0 : bolt_DB := {| opened := true; data := {[ "users" := ∅ ]} |}.

Definition world_closed : World := {|
  heap := [ann];
  dbs := [ {| opened := false; data := {[ "users" := ∅ ]} |} ];
  idgen := 0;
|}.

(** [world1] once Bo is stored. *)
Definition world_bo : World :=
  stored users (le32 42) bo_bytes (prepared 1%nat bo 0 [ann; bo] world1).

Lemma bo_inserted :
  InsertOne users (VMap (Some 1%nat)) world1 = (Ok (VInt 42), world_bo).
Proof.
  apply (InsertOne_run users (VMap (Some 1%nat)) world1 1%nat [ann; bo] bo
           (VInt 42) bo 0 (le32 42) bo_bytes);
    vm_compute; reflexivity.
Qed.

End SampleRuns.

Section MoreWitnesses.
Import SampleFacts SampleRuns.
#[local] Existing Instance Sample.externals.

Lemma InsertOne_success_puts_one_record_witness :
  exists bid bdoc b,
    ready Sample.users world1 = true
    /\ keyspace Sample.users world1 = Some b
    /\ bson_MarshalValue (heap world_bo) (VInt 42) = Ok bid
    /\ keyspace Sample.users world_bo = Some (<[bid := bdoc]> b)
    /\ (forall k, k <> bid -> record Sample.users world_bo k = record Sample.users world1 k)
    /\ ready Sample.users world_bo = true.
Proof.
  exact (InsertOne_success_puts_one_record Sample.users (VMap (Some 1%nat)) world1
           (VInt 42) world_bo bo_inserted).
Defined.

Lemma InsertOne_failure_writes_nothing_witness :
  dbs (InsertOne Sample.users (VInt 3) Sample.world0).2 = dbs Sample.world0
  /\ forall c' k, record c' (InsertOne Sample.users (VInt 3) Sample.world0).2 k = record c' Sample.world0 k.
Proof.
  exact (InsertOne_failure_writes_nothing Sample.users (VInt 3) Sample.world0 eq_refl).
Defined.

Lemma InsertOne_other_collections_witness :
  keyspace orders (InsertOne Sample.users (VMap (Some 0%nat)) Sample.world0).2
  = keyspace orders Sample.world0.
Proof.
  apply (InsertOne_other_collections Sample.users orders (VMap (Some 0%nat)) Sample.world0).
  right. discriminate.
Defined.


Lemma InsertOne_then_GetByID_decodes_witness :
  exists bid bdoc,
    record Sample.users world_bo bid = Some bdoc
    /\ GetByID Sample.users (VInt 42) world_bo
       = (let* m := Unmarshal bdoc in ret (VMap m))%go world_bo
    /\ forall content,
         bson_Unmarshal bdoc = Ok content ->
         exists r w2,
           GetByID Sample.users (VInt 42) world_bo = (Ok (VMap (Some r)), w2)
           /\ heap w2 !! r = Some content.
Proof.
  exact (InsertOne_then_GetByID_decodes Sample.users (VMap (Some 1%nat)) world1
           (VInt 42) world_bo bo_inserted).
Defined.

Lemma InsertOne_new_key_adds_record_witness :
  exists b1,
    keyspace Sample.users world_bo = Some b1
    /\ size b1 = S (size (∅ : gmap string string))
    /\ forall k v, (∅ : gmap string string) !! k = Some v -> b1 !! k = Some v.
Proof.
  apply (InsertOne_new_key_adds_record Sample.users (VMap (Some 1%nat)) world1
           (VInt 42) world_bo (Sample.le32 42) ∅ bo_inserted);
    vm_compute; reflexivity.
Defined.

Lemma InsertOne_keeps_map_with_id_witness :
  heap (InsertOne Sample.users (VMap (Some 1%nat)) world1).2 = heap world1
  /\ idgen (InsertOne Sample.users (VMap (Some 1%nat)) world1).2 = idgen world1
  /\ forall v w1, InsertOne Sample.users (VMap (Some 1%nat)) world1 = (Ok v, w1) -> v = VInt 42.
Proof.
  apply (InsertOne_keeps_map_with_id Sample.users 1%nat world1 bo (VInt 42));
    vm_compute; reflexivity.
Defined.

Lemma GetByID_returns_new_map_witness :
  exists r w1,
    GetByID Sample.users (VInt 42) world_bo = (Ok (VMap (Some r)), w1)
    /\ heap world_bo !! r = None
    /\ heap w1 !! r = Some bo.
Proof.
  apply (GetByID_returns_new_map Sample.users (VInt 42) world_bo (Sample.le32 42) bo_bytes bo);
    vm_compute; reflexivity.
Defined.

Lemma GetByID_codec_errors_witness :
  GetByID Sample.users (VBool true) Sample.world0 = (Err (ErrCodec "no encoder found"), Sample.world0)
  /\ ready Sample.users Sample.world0 = true.
Proof.
  split; [|reflexivity].
  apply (proj1 (GetByID_codec_errors Sample.users (VBool true) Sample.world0)).
  reflexivity.
Defined.

Lemma InsertOne_explicit_id_round_trip_witness :
  exists w1 r w2,
    InsertOne Sample.users cy_struct Sample.world0 = (Ok (VInt 42), w1)
    /\ GetByID Sample.users (VInt 42) w1 = (Ok (VMap (Some r)), w2)
    /\ heap w1 !! r = None
    /\ heap w2 !! r = Some cy.
Proof.
  apply (InsertOne_explicit_id_round_trip Sample.users cy_struct Sample.world0 1%nat [Sample.ann; cy] cy
           (VInt 42) (Sample.le32 42) cy_bytes);
    vm_compute; reflexivity.
Defined.

Lemma Drop_removes_keyspace_witness :
  exists w1,
    Drop Sample.users Sample.world0 = (Ok tt, w1)
    /\ keyspace Sample.users w1 = None
    /\ (forall c',
          Database_db (Collection_db c') <> Database_db (Collection_db Sample.users)
          \/ Collection_name c' <> Collection_name Sample.users ->
          keyspace c' w1 = keyspace c' Sample.world0)
    /\ heap w1 = heap Sample.world0 /\ idgen w1 = idgen Sample.world0
    /\ Drop Sample.users w1 = (Err ErrBucketNotFound, w1).
Proof.
  apply (Drop_removes_keyspace Sample.users Sample.world0). vm_compute. reflexivity.
Defined.

Lemma methods_on_missing_keyspace_witness :
  (forall id bid,
      bson_MarshalValue (heap Sample.world0) id = Ok bid ->
      GetByID orders id Sample.world0 = (Panic, Sample.world0))
  /\ (forall doc,
        succeeded (InsertOne orders doc Sample.world0).1 = false
        /\ dbs (InsertOne orders doc Sample.world0).2 = dbs Sample.world0).
Proof.
  apply (methods_on_missing_keyspace orders Sample.world0 d0); reflexivity.
Defined.

Lemma Drop_then_Collection_is_empty_witness :
  exists w1 w2,
    Drop Sample.users world_bo = (Ok tt, w1)
    /\ Database_Collection Sample.db0 "users" w1 = (Ok Sample.users, w2)
    /\ keyspace Sample.users w2 = Some ∅
    /\ forall id bid,
         bson_MarshalValue (heap w2) id = Ok bid ->
         GetByID Sample.users id w2 = (Err (errors_New "document not found"), w2).
Proof.
  apply (Drop_then_Collection_is_empty Sample.users world_bo).
  - vm_compute. reflexivity.
  - discriminate.
Defined.

Lemma Close_keeps_data_witness :
  exists w1,
    Close Sample.db0 Sample.world0 = (Ok tt, w1)
    /\ dbs w1 !! Database_db Sample.db0 = Some {| opened := false; data := data d0 |}
    /\ (forall c, keyspace c w1 = keyspace c Sample.world0)
    /\ heap w1 = heap Sample.world0 /\ idgen w1 = idgen Sample.world0
    /\ Close Sample.db0 w1 = (Ok tt, w1).
Proof.
  apply (Close_keeps_data Sample.db0 Sample.world0 d0). reflexivity.
Defined.

Lemma methods_on_closed_database_witness :
  (forall name,
      name <> "" ->
      Database_Collection Sample.db0 name world_closed = (Err ErrDatabaseNotOpen, world_closed))
  /\ Drop Sample.users world_closed = (Err ErrDatabaseNotOpen, world_closed)
  /\ (forall id bid,
        bson_MarshalValue (heap world_closed) id = Ok bid ->
        GetByID Sample.users id world_closed = (Err ErrDatabaseNotOpen, world_closed))
  /\ (forall doc,
        succeeded (InsertOne Sample.users doc world_closed).1 = false
        /\ dbs (InsertOne Sample.users doc world_closed).2 = dbs world_closed).
Proof.
  apply (methods_on_closed_database Sample.users world_closed
           {| opened := false; data := {[ "users" := ∅ ]} |});
    reflexivity.
Defined.

Lemma InsertOne_closed_database_still_assigns_witness :
  InsertOne Sample.users (VMap (Some 0%nat)) world_closed
  = (Err ErrDatabaseNotOpen,
     {| heap := <[0%nat := <["_id" := VObjectID oid1]> Sample.ann]> (heap world_closed);
        dbs := dbs world_closed; idgen := 1 |}).
Proof.
  apply (InsertOne_closed_database_still_assigns Sample.users 0%nat world_closed Sample.ann oid1 1
           oid1 ann_bytes {| opened := false; data := {[ "users" := ∅ ]} |});
    vm_compute; reflexivity.
Defined.

Lemma Collection_keeps_existing_keyspaces_witness :
  keyspace Sample.users (Database_Collection Sample.db0 "orders" world_bo).2
  = Some {[ Sample.le32 42 := bo_bytes ]}.
Proof.
  apply (proj2 (proj2 (Collection_keeps_existing_keyspaces Sample.db0 "orders" world_bo))).
  vm_compute. reflexivity.
Defined.

Lemma CollectionMust_panics_on_error_witness :
  CollectionMust Sample.db0 "orders" world_closed = (Panic, world_closed)
  /\ CollectionMust Sample.db0 "" Sample.world0 = (Panic, Sample.world0).
Proof.
  split.
  - apply (proj1 (proj2 (proj2 (CollectionMust_panics_on_error Sample.db0 "orders" world_closed)))
             {| opened := false; data := {[ "users" := ∅ ]} |});
      reflexivity.
  - apply (proj1 (proj2 (CollectionMust_panics_on_error Sample.db0 "" Sample.world0))).
Defined.

End MoreWitnesses.
